(** * NodeGrain: the C++ grain engine (cpp/src), embedded and verified

    The engine of [grain_engine.cpp], [grain_engine.h], [grain.h], [lfo.h]
    and [param_smoother.h] is translated function by function.

    Numeric conventions of the embedding:
    - [float] and [double] values are real numbers ([R]); round-off, NaN and
      the infinities are outside the model, so [1.0f / sampleRate] is only
      meaningful for a non-zero sample rate;
    - [int], [int32_t] and [uint32_t] values are integers ([Z]); the wrap
      of the 32-bit PRNG state is written out;
    - [std::max], [std::min], [std::abs] are [Rmax], [Rmin], [Rabs];
      [std::sin], [std::cos], [std::exp] are the real functions and
      [std::pow(2, x)] is [Rpower 2 x];
    - fixed-size arrays are lists (the grain pool has [MAX_GRAINS] entries);
    - the [while] loop of [process] takes fuel and returns [None] when the
      fuel runs out. *)

From Stdlib Require Import Reals Lra Lia ZArith List Bool Psatz.
Import ListNotations.
Local Open Scope R_scope.

(** ** Conversions and array access *)

(** [static_cast<int>(x)]: truncation toward zero. *)
Definition static_cast_int (x : R) : Z :=
  if Rle_dec 0 x then Int_part x else (- Int_part (- x))%Z.

(** [std::fmod(x, 1.0f)]: the remainder has the sign of [x]. *)
Definition fmod1 (x : R) : R := x - IZR (static_cast_int x).

(** [a[i] = v] on an array held as a list; an index outside the array
    leaves the list as it is (the code never writes there). *)
Fixpoint list_set {A : Type} (l : list A) (i : nat) (v : A) : list A :=
  match l, i with
  | [], _ => []
  | _ :: t, O => v :: t
  | h :: t, S j => h :: list_set t j v
  end.

Definition INT32_MAX : Z := 2147483647.

(** ** param_smoother.h *)

Module ParamSmoother.

Record t := mk {
  sampleRate_ : R;
  coeff_ : R;
  current_ : R;
  target_ : R
}.

(** Member initialisers of the class. *)
Definition default : t := mk 48000 1 0 0.

Definition setSmoothTime (s : t) (ms : R) : t :=
  if Rlt_dec 0 (sampleRate_ s) then
    if Rlt_dec 0 ms then
      mk (sampleRate_ s) (1 - exp (- 1 / (sampleRate_ s * ms * 0.001)))
         (current_ s) (target_ s)
    else mk (sampleRate_ s) 1 (current_ s) (target_ s)
  else mk (sampleRate_ s) 1 (current_ s) (target_ s).

Definition init (s : t) (sampleRate smoothTimeMs : R) : t :=
  setSmoothTime (mk sampleRate (coeff_ s) (current_ s) (target_ s)) smoothTimeMs.

Definition setImmediate (s : t) (value : R) : t :=
  mk (sampleRate_ s) (coeff_ s) value value.

Definition setTarget (s : t) (value : R) : t :=
  mk (sampleRate_ s) (coeff_ s) (current_ s) value.

(** [process] updates [current_] and returns it. *)
Definition process (s : t) : t :=
  mk (sampleRate_ s) (coeff_ s)
     (current_ s + (target_ s - current_ s) * coeff_ s) (target_ s).

Definition getCurrent (s : t) : R := current_ s.
Definition getTarget (s : t) : R := target_ s.

(** [n] successive calls of [process]. *)
Fixpoint process_n (n : nat) (s : t) : t :=
  match n with
  | O => s
  | S k => process_n k (process s)
  end.

End ParamSmoother.

(** ** lfo.h *)

Module LFO.

(** [shape_] holds the integer the engine casts to [LfoShape]:
    Sine = 0, Triangle = 1, Square = 2, Sawtooth = 3. *)
Record t := mk {
  rate_ : R;
  shape_ : Z
}.

Definition default : t := mk 1 0.

Definition setRate (l : t) (hz : R) : t := mk hz (shape_ l).
Definition setShape (l : t) (shape : Z) : t := mk (rate_ l) shape.

Definition getValue (l : t) (timeSec : R) : R :=
  let phase := fmod1 (timeSec * rate_ l) in
  let phase := if Rlt_dec phase 0 then phase + 1 else phase in
  match shape_ l with
  | 0%Z => sin (phase * 2 * PI)
  | 2%Z => if Rlt_dec phase 0.5 then 1 else -1
  | 3%Z => phase * 2 - 1
  | 1%Z => Rabs (phase * 4 - 2) - 1
  | _ => 0
  end.

End LFO.

(** ** grain.h *)

Record Grain := mkGrain {
  active : bool;
  position : R;
  playbackRate : R;
  samplesRemaining : Z;
  totalSamples : Z;
  envPhase : R;
  envIncrement : R;
  attackRatio : R;
  releaseRatio : R;
  exponentialEnv : bool;
  panL : R;
  panR : R;
  normPos : R;
  duration : R;
  pan : R
}.

Definition MAX_GRAINS : Z := 128.

(** A slot after [memset(grains_, 0, ...)]. *)
Definition zeroGrain : Grain :=
  mkGrain false 0 0 0 0 0 0 0 0 false 0 0 0 0 0.

Definition deactivate (g : Grain) : Grain :=
  mkGrain false (position g) (playbackRate g) (samplesRemaining g)
    (totalSamples g) (envPhase g) (envIncrement g) (attackRatio g)
    (releaseRatio g) (exponentialEnv g) (panL g) (panR g) (normPos g)
    (duration g) (pan g).

(** ** grain_engine.h *)

Module GrainEvent.
Record t := mk {
  normPos : R;
  duration : R;
  pan : R
}.
Definition zero : t := mk 0 0 0.
End GrainEvent.

Definition MAX_GRAIN_EVENTS : Z := 64.

Module EngineParams.
Record t := mk {
  grainSize : R;
  density : R;
  spread : R;
  position : R;
  grainReversalChance : R;
  pan : R;
  panSpread : R;
  pitch : R;
  detune : R;
  fmFreq : R;
  fmAmount : R;
  attack : R;
  release : R;
  envelopeCurve : Z;
  lfoRate : R;
  lfoAmount : R;
  lfoShape : Z;
  lfoTargetMask : Z;
  volume : R
}.

(** Default member initialisers (the filter and FX fields, which the
    engine never reads, are left out). *)
Definition default : t :=
  mk 0.3 0.15 0 0 0 0 0 0 0 0 0 0.5 0.5 0 1 0 0 0 0.8.
End EngineParams.

(** LFO target bits. *)
Definition LFO_GRAIN_SIZE : Z := Z.shiftl 1 0.
Definition LFO_DENSITY : Z := Z.shiftl 1 1.
Definition LFO_SPREAD : Z := Z.shiftl 1 2.
Definition LFO_POSITION : Z := Z.shiftl 1 3.
Definition LFO_PITCH : Z := Z.shiftl 1 4.
Definition LFO_FM_FREQ : Z := Z.shiftl 1 5.
Definition LFO_FM_AMOUNT : Z := Z.shiftl 1 6.
Definition LFO_ATTACK : Z := Z.shiftl 1 9.
Definition LFO_RELEASE : Z := Z.shiftl 1 10.
Definition LFO_PAN : Z := Z.shiftl 1 15.
Definition LFO_PAN_SPREAD : Z := Z.shiftl 1 16.

Module ModScales.
Definition grainSize : R := 0.2.
Definition density : R := 0.1.
Definition spread : R := 1.
Definition position : R := 0.5.
Definition pitch : R := 24.
Definition fmFreq : R := 200.
Definition fmAmount : R := 50.
Definition attack : R := 0.5.
Definition release : R := 0.5.
Definition pan : R := 1.
Definition panSpread : R := 1.
End ModScales.

(** The engine state.  [sampleBuffer_] is [None] for the null pointer;
    [outputL_] and [outputR_] are storage handed to the caller and are
    represented by the lists [process] returns. *)
Record GrainEngine := mkEngine {
  sampleRate_ : R;
  invSampleRate_ : R;
  isPlaying_ : bool;
  currentTime_ : R;
  nextGrainTime_ : R;
  sampleBuffer_ : option (list R);
  sampleBufferLength_ : Z;
  sampleBufferChannels_ : Z;
  grains_ : list Grain;
  lfo_ : LFO.t;
  currentLfoValue_ : R;
  params_ : EngineParams.t;
  pitchSmoother_ : ParamSmoother.t;
  positionSmoother_ : ParamSmoother.t;
  grainSizeSmoother_ : ParamSmoother.t;
  panSmoother_ : ParamSmoother.t;
  volumeSmoother_ : ParamSmoother.t;
  isFrozen_ : bool;
  frozenPosition_ : R;
  isDrifting_ : bool;
  driftPosition_ : R;
  driftBasePosition_ : R;
  driftSpeed_ : R;
  driftReturnTendency_ : R;
  grainEvents_ : list GrainEvent.t;
  grainEventCount_ : Z;
  rngState_ : Z
}.

(** The constructor: member initialisers, then the [memset]s. *)
Definition GrainEngine_new : GrainEngine :=
  mkEngine 48000 (1 / 48000) false 0 0 None 0 1
    (repeat zeroGrain (Z.to_nat MAX_GRAINS))
    LFO.default 0 EngineParams.default
    ParamSmoother.default ParamSmoother.default ParamSmoother.default
    ParamSmoother.default ParamSmoother.default
    false 0 false 0.5 0.5 0.5 0.3
    (repeat GrainEvent.zero (Z.to_nat MAX_GRAIN_EVENTS)) 0
    12345.

(** *** Field updates *)

Definition set_rate (e : GrainEngine) (sr inv : R) : GrainEngine :=
  mkEngine sr inv (isPlaying_ e) (currentTime_ e) (nextGrainTime_ e)
    (sampleBuffer_ e) (sampleBufferLength_ e) (sampleBufferChannels_ e)
    (grains_ e) (lfo_ e) (currentLfoValue_ e) (params_ e)
    (pitchSmoother_ e) (positionSmoother_ e) (grainSizeSmoother_ e)
    (panSmoother_ e) (volumeSmoother_ e)
    (isFrozen_ e) (frozenPosition_ e) (isDrifting_ e) (driftPosition_ e)
    (driftBasePosition_ e) (driftSpeed_ e) (driftReturnTendency_ e)
    (grainEvents_ e) (grainEventCount_ e) (rngState_ e).

Definition set_isPlaying (e : GrainEngine) (b : bool) : GrainEngine :=
  mkEngine (sampleRate_ e) (invSampleRate_ e) b (currentTime_ e)
    (nextGrainTime_ e)
    (sampleBuffer_ e) (sampleBufferLength_ e) (sampleBufferChannels_ e)
    (grains_ e) (lfo_ e) (currentLfoValue_ e) (params_ e)
    (pitchSmoother_ e) (positionSmoother_ e) (grainSizeSmoother_ e)
    (panSmoother_ e) (volumeSmoother_ e)
    (isFrozen_ e) (frozenPosition_ e) (isDrifting_ e) (driftPosition_ e)
    (driftBasePosition_ e) (driftSpeed_ e) (driftReturnTendency_ e)
    (grainEvents_ e) (grainEventCount_ e) (rngState_ e).

Definition set_currentTime (e : GrainEngine) (t : R) : GrainEngine :=
  mkEngine (sampleRate_ e) (invSampleRate_ e) (isPlaying_ e) t
    (nextGrainTime_ e)
    (sampleBuffer_ e) (sampleBufferLength_ e) (sampleBufferChannels_ e)
    (grains_ e) (lfo_ e) (currentLfoValue_ e) (params_ e)
    (pitchSmoother_ e) (positionSmoother_ e) (grainSizeSmoother_ e)
    (panSmoother_ e) (volumeSmoother_ e)
    (isFrozen_ e) (frozenPosition_ e) (isDrifting_ e) (driftPosition_ e)
    (driftBasePosition_ e) (driftSpeed_ e) (driftReturnTendency_ e)
    (grainEvents_ e) (grainEventCount_ e) (rngState_ e).

Definition set_nextGrainTime (e : GrainEngine) (t : R) : GrainEngine :=
  mkEngine (sampleRate_ e) (invSampleRate_ e) (isPlaying_ e)
    (currentTime_ e) t
    (sampleBuffer_ e) (sampleBufferLength_ e) (sampleBufferChannels_ e)
    (grains_ e) (lfo_ e) (currentLfoValue_ e) (params_ e)
    (pitchSmoother_ e) (positionSmoother_ e) (grainSizeSmoother_ e)
    (panSmoother_ e) (volumeSmoother_ e)
    (isFrozen_ e) (frozenPosition_ e) (isDrifting_ e) (driftPosition_ e)
    (driftBasePosition_ e) (driftSpeed_ e) (driftReturnTendency_ e)
    (grainEvents_ e) (grainEventCount_ e) (rngState_ e).

Definition set_sampleBuffer (e : GrainEngine) (buf : option (list R))
    (len channels : Z) : GrainEngine :=
  mkEngine (sampleRate_ e) (invSampleRate_ e) (isPlaying_ e)
    (currentTime_ e) (nextGrainTime_ e)
    buf len channels
    (grains_ e) (lfo_ e) (currentLfoValue_ e) (params_ e)
    (pitchSmoother_ e) (positionSmoother_ e) (grainSizeSmoother_ e)
    (panSmoother_ e) (volumeSmoother_ e)
    (isFrozen_ e) (frozenPosition_ e) (isDrifting_ e) (driftPosition_ e)
    (driftBasePosition_ e) (driftSpeed_ e) (driftReturnTendency_ e)
    (grainEvents_ e) (grainEventCount_ e) (rngState_ e).

Definition set_grains (e : GrainEngine) (gs : list Grain) : GrainEngine :=
  mkEngine (sampleRate_ e) (invSampleRate_ e) (isPlaying_ e)
    (currentTime_ e) (nextGrainTime_ e)
    (sampleBuffer_ e) (sampleBufferLength_ e) (sampleBufferChannels_ e)
    gs (lfo_ e) (currentLfoValue_ e) (params_ e)
    (pitchSmoother_ e) (positionSmoother_ e) (grainSizeSmoother_ e)
    (panSmoother_ e) (volumeSmoother_ e)
    (isFrozen_ e) (frozenPosition_ e) (isDrifting_ e) (driftPosition_ e)
    (driftBasePosition_ e) (driftSpeed_ e) (driftReturnTendency_ e)
    (grainEvents_ e) (grainEventCount_ e) (rngState_ e).

Definition set_lfo (e : GrainEngine) (l : LFO.t) : GrainEngine :=
  mkEngine (sampleRate_ e) (invSampleRate_ e) (isPlaying_ e)
    (currentTime_ e) (nextGrainTime_ e)
    (sampleBuffer_ e) (sampleBufferLength_ e) (sampleBufferChannels_ e)
    (grains_ e) l (currentLfoValue_ e) (params_ e)
    (pitchSmoother_ e) (positionSmoother_ e) (grainSizeSmoother_ e)
    (panSmoother_ e) (volumeSmoother_ e)
    (isFrozen_ e) (frozenPosition_ e) (isDrifting_ e) (driftPosition_ e)
    (driftBasePosition_ e) (driftSpeed_ e) (driftReturnTendency_ e)
    (grainEvents_ e) (grainEventCount_ e) (rngState_ e).

Definition set_currentLfoValue (e : GrainEngine) (v : R) : GrainEngine :=
  mkEngine (sampleRate_ e) (invSampleRate_ e) (isPlaying_ e)
    (currentTime_ e) (nextGrainTime_ e)
    (sampleBuffer_ e) (sampleBufferLength_ e) (sampleBufferChannels_ e)
    (grains_ e) (lfo_ e) v (params_ e)
    (pitchSmoother_ e) (positionSmoother_ e) (grainSizeSmoother_ e)
    (panSmoother_ e) (volumeSmoother_ e)
    (isFrozen_ e) (frozenPosition_ e) (isDrifting_ e) (driftPosition_ e)
    (driftBasePosition_ e) (driftSpeed_ e) (driftReturnTendency_ e)
    (grainEvents_ e) (grainEventCount_ e) (rngState_ e).

Definition set_params (e : GrainEngine) (p : EngineParams.t) : GrainEngine :=
  mkEngine (sampleRate_ e) (invSampleRate_ e) (isPlaying_ e)
    (currentTime_ e) (nextGrainTime_ e)
    (sampleBuffer_ e) (sampleBufferLength_ e) (sampleBufferChannels_ e)
    (grains_ e) (lfo_ e) (currentLfoValue_ e) p
    (pitchSmoother_ e) (positionSmoother_ e) (grainSizeSmoother_ e)
    (panSmoother_ e) (volumeSmoother_ e)
    (isFrozen_ e) (frozenPosition_ e) (isDrifting_ e) (driftPosition_ e)
    (driftBasePosition_ e) (driftSpeed_ e) (driftReturnTendency_ e)
    (grainEvents_ e) (grainEventCount_ e) (rngState_ e).

Definition set_smoothers (e : GrainEngine)
    (pitchS positionS grainSizeS panS volumeS : ParamSmoother.t)
    : GrainEngine :=
  mkEngine (sampleRate_ e) (invSampleRate_ e) (isPlaying_ e)
    (currentTime_ e) (nextGrainTime_ e)
    (sampleBuffer_ e) (sampleBufferLength_ e) (sampleBufferChannels_ e)
    (grains_ e) (lfo_ e) (currentLfoValue_ e) (params_ e)
    pitchS positionS grainSizeS panS volumeS
    (isFrozen_ e) (frozenPosition_ e) (isDrifting_ e) (driftPosition_ e)
    (driftBasePosition_ e) (driftSpeed_ e) (driftReturnTendency_ e)
    (grainEvents_ e) (grainEventCount_ e) (rngState_ e).

Definition set_frozen (e : GrainEngine) (b : bool) (pos : R) : GrainEngine :=
  mkEngine (sampleRate_ e) (invSampleRate_ e) (isPlaying_ e)
    (currentTime_ e) (nextGrainTime_ e)
    (sampleBuffer_ e) (sampleBufferLength_ e) (sampleBufferChannels_ e)
    (grains_ e) (lfo_ e) (currentLfoValue_ e) (params_ e)
    (pitchSmoother_ e) (positionSmoother_ e) (grainSizeSmoother_ e)
    (panSmoother_ e) (volumeSmoother_ e)
    b pos (isDrifting_ e) (driftPosition_ e)
    (driftBasePosition_ e) (driftSpeed_ e) (driftReturnTendency_ e)
    (grainEvents_ e) (grainEventCount_ e) (rngState_ e).

Definition set_drift (e : GrainEngine) (b : bool)
    (pos base speed ret : R) : GrainEngine :=
  mkEngine (sampleRate_ e) (invSampleRate_ e) (isPlaying_ e)
    (currentTime_ e) (nextGrainTime_ e)
    (sampleBuffer_ e) (sampleBufferLength_ e) (sampleBufferChannels_ e)
    (grains_ e) (lfo_ e) (currentLfoValue_ e) (params_ e)
    (pitchSmoother_ e) (positionSmoother_ e) (grainSizeSmoother_ e)
    (panSmoother_ e) (volumeSmoother_ e)
    (isFrozen_ e) (frozenPosition_ e) b pos base speed ret
    (grainEvents_ e) (grainEventCount_ e) (rngState_ e).

Definition set_grainEvents (e : GrainEngine) (evs : list GrainEvent.t)
    (count : Z) : GrainEngine :=
  mkEngine (sampleRate_ e) (invSampleRate_ e) (isPlaying_ e)
    (currentTime_ e) (nextGrainTime_ e)
    (sampleBuffer_ e) (sampleBufferLength_ e) (sampleBufferChannels_ e)
    (grains_ e) (lfo_ e) (currentLfoValue_ e) (params_ e)
    (pitchSmoother_ e) (positionSmoother_ e) (grainSizeSmoother_ e)
    (panSmoother_ e) (volumeSmoother_ e)
    (isFrozen_ e) (frozenPosition_ e) (isDrifting_ e) (driftPosition_ e)
    (driftBasePosition_ e) (driftSpeed_ e) (driftReturnTendency_ e)
    evs count (rngState_ e).

Definition set_rngState (e : GrainEngine) (s : Z) : GrainEngine :=
  mkEngine (sampleRate_ e) (invSampleRate_ e) (isPlaying_ e)
    (currentTime_ e) (nextGrainTime_ e)
    (sampleBuffer_ e) (sampleBufferLength_ e) (sampleBufferChannels_ e)
    (grains_ e) (lfo_ e) (currentLfoValue_ e) (params_ e)
    (pitchSmoother_ e) (positionSmoother_ e) (grainSizeSmoother_ e)
    (panSmoother_ e) (volumeSmoother_ e)
    (isFrozen_ e) (frozenPosition_ e) (isDrifting_ e) (driftPosition_ e)
    (driftBasePosition_ e) (driftSpeed_ e) (driftReturnTendency_ e)
    (grainEvents_ e) (grainEventCount_ e) s.

(** ** grain_engine.cpp *)

(** *** PRNG: xorshift32 on a [uint32_t] *)

Definition randomUint (s : Z) : Z :=
  let s1 := Z.lxor s (Z.shiftl s 13 mod 2 ^ 32) in
  let s2 := Z.lxor s1 (Z.shiftr s1 17) in
  Z.lxor s2 (Z.shiftl s2 5 mod 2 ^ 32).

(** [randomFloat] returns the value drawn and the new [rngState_]. *)
Definition randomFloat (s : Z) : R * Z :=
  (IZR (randomUint s) / 4294967296, randomUint s).

(** *** Modulation mux *)

Definition getModulated (e : GrainEngine) (base : R) (targetBit : Z)
    (scale minVal maxVal : R) : R :=
  if (Z.land (EngineParams.lfoTargetMask (params_ e)) targetBit =? 0)%Z
  then base
  else
    let val :=
      base + (currentLfoValue_ e * EngineParams.lfoAmount (params_ e) * scale)
    in Rmax minVal (Rmin maxVal val).

(** *** Envelope *)

Definition fadeRatio : R := 0.01.
Definition epsilon : R := 0.000001.

Definition computeEnvelope (grain : Grain) : R :=
  let phase := envPhase grain in
  let attackEnd := attackRatio grain in
  let releaseStart := 1 - releaseRatio grain in
  if Rlt_dec phase fadeRatio then
    phase / fadeRatio * 0.001
  else if Rlt_dec phase attackEnd then
    let attackDuration := attackEnd - fadeRatio in
    if Rlt_dec attackDuration epsilon then 0.001
    else
      let t := (phase - fadeRatio) / attackDuration in
      if exponentialEnv grain then 0.001 + t * t * (1 - 0.001)
      else 0.001 + t * (1 - 0.001)
  else if Rlt_dec phase releaseStart then 1
  else
    if Rlt_dec (releaseRatio grain) epsilon then 0
    else
      let t := (phase - releaseStart) / releaseRatio grain in
      let t := Rmin 1 t in
      if exponentialEnv grain then
        let val := 1 - t in val * val
      else 1 - t.

(** *** Slot search of [spawnGrain]

    The [for] loop over the pool: [i] is the loop index, [oldestSlot] and
    [leastRemaining] the two locals.  The result is [(slot, oldestSlot)]
    at loop exit, [slot = -1] when the loop ran to the end. *)
Fixpoint findSlot (gs : list Grain) (i oldestSlot leastRemaining : Z)
    : Z * Z :=
  match gs with
  | [] => ((-1)%Z, oldestSlot)
  | g :: rest =>
      if negb (active g) then (i, oldestSlot)
      else if (samplesRemaining g <? leastRemaining)%Z
      then findSlot rest (i + 1)%Z i (samplesRemaining g)
      else findSlot rest (i + 1)%Z oldestSlot leastRemaining
  end.

(** The slot [spawnGrain] writes to; negative when it returns early. *)
Definition chooseSlot (gs : list Grain) : Z :=
  let '(slot, oldestSlot) := findSlot gs 0 (-1) INT32_MAX in
  if (slot <? 0)%Z then oldestSlot else slot.

(** *** The locals of [spawnGrain], in the order the code computes them *)

Definition spawn_grainSize (e : GrainEngine) : R :=
  getModulated e (ParamSmoother.getCurrent (grainSizeSmoother_ e))
    LFO_GRAIN_SIZE ModScales.grainSize 0.01 0.5.
Definition spawn_spread (e : GrainEngine) : R :=
  getModulated e (EngineParams.spread (params_ e))
    LFO_SPREAD ModScales.spread 0 2.
Definition spawn_pitch (e : GrainEngine) : R :=
  getModulated e (ParamSmoother.getCurrent (pitchSmoother_ e))
    LFO_PITCH ModScales.pitch (-24) 24.
Definition spawn_fmFreq (e : GrainEngine) : R :=
  getModulated e (EngineParams.fmFreq (params_ e))
    LFO_FM_FREQ ModScales.fmFreq 0 1000.
Definition spawn_fmAmount (e : GrainEngine) : R :=
  getModulated e (EngineParams.fmAmount (params_ e))
    LFO_FM_AMOUNT ModScales.fmAmount 0 100.
Definition spawn_attack (e : GrainEngine) : R :=
  getModulated e (EngineParams.attack (params_ e))
    LFO_ATTACK ModScales.attack 0.01 0.9.
Definition spawn_release (e : GrainEngine) : R :=
  getModulated e (EngineParams.release (params_ e))
    LFO_RELEASE ModScales.release 0.01 0.9.
Definition spawn_panCenter (e : GrainEngine) : R :=
  getModulated e (ParamSmoother.getCurrent (panSmoother_ e))
    LFO_PAN ModScales.pan (-1) 1.
Definition spawn_panSpread (e : GrainEngine) : R :=
  getModulated e (EngineParams.panSpread (params_ e))
    LFO_PAN_SPREAD ModScales.panSpread 0 1.

Definition spawn_basePosition (e : GrainEngine) : R :=
  if isFrozen_ e then frozenPosition_ e
  else if isDrifting_ e then driftPosition_ e
  else ParamSmoother.getCurrent (positionSmoother_ e).
Definition spawn_position (e : GrainEngine) : R :=
  getModulated e (spawn_basePosition e)
    LFO_POSITION ModScales.position 0 1.

Definition spawn_grainDuration (e : GrainEngine) : R :=
  Rmax 0.01 (spawn_grainSize e).
Definition spawn_totalSamples (e : GrainEngine) : Z :=
  let totalSamples := static_cast_int (spawn_grainDuration e * sampleRate_ e) in
  if (totalSamples <? 1)%Z then 1%Z else totalSamples.

(** The four [randomFloat()] calls of one spawn, in program order:
    detune, reversal, start offset, pan. *)
Definition spawn_rng1 (e : GrainEngine) : R * Z := randomFloat (rngState_ e).
Definition spawn_rng2 (e : GrainEngine) : R * Z :=
  randomFloat (snd (spawn_rng1 e)).
Definition spawn_rng3 (e : GrainEngine) : R * Z :=
  randomFloat (snd (spawn_rng2 e)).
Definition spawn_rng4 (e : GrainEngine) : R * Z :=
  randomFloat (snd (spawn_rng3 e)).

Definition spawn_cents (e : GrainEngine) : R :=
  spawn_pitch e * 100 +
  (fst (spawn_rng1 e) * EngineParams.detune (params_ e) * 2
   - EngineParams.detune (params_ e)).
Definition spawn_reversed (e : GrainEngine) : bool :=
  if Rlt_dec (fst (spawn_rng2 e))
       (EngineParams.grainReversalChance (params_ e))
  then true else false.
Definition spawn_rate (e : GrainEngine) : R :=
  let rate := Rpower 2 (spawn_cents e / 1200) in
  if spawn_reversed e then - rate else rate.
Definition spawn_fmMod (e : GrainEngine) : R :=
  if Rlt_dec 0 (spawn_fmAmount e)
  then sin (currentTime_ e * spawn_fmFreq e) * (spawn_fmAmount e * 0.01)
  else 0.
Definition spawn_finalRate (e : GrainEngine) : R :=
  let finalRate := Rmax 0.1 (Rabs (spawn_rate e + spawn_fmMod e)) in
  if spawn_reversed e then - finalRate else finalRate.

Definition spawn_startSample (e : GrainEngine) : R :=
  let len := IZR (sampleBufferLength_ e) in
  let centerSample := spawn_position e * len in
  let randomOffset :=
    (fst (spawn_rng3 e) * 2 - 1) * spawn_spread e * len * 0.5 in
  let startSample := centerSample + randomOffset in
  let maxStart :=
    len - spawn_grainDuration e * sampleRate_ e * Rabs (spawn_finalRate e) in
  let startSample := Rmax 0 (Rmin startSample (Rmax 0 maxStart)) in
  if spawn_reversed e
  then Rmin (startSample + spawn_grainDuration e * sampleRate_ e)
            (IZR (sampleBufferLength_ e - 1))
  else startSample.

Definition spawn_finalPan (e : GrainEngine) : R :=
  let randomPan := (fst (spawn_rng4 e) * 2 - 1) * spawn_panSpread e in
  Rmax (-1) (Rmin 1 (spawn_panCenter e + randomPan)).
Definition spawn_panAngle (e : GrainEngine) : R :=
  (spawn_finalPan e + 1) * 0.25 * PI.

(** The grain record [spawnGrain] writes into the chosen slot. *)
Definition newGrain (e : GrainEngine) : Grain :=
  let bufferDurationSec := IZR (sampleBufferLength_ e) * invSampleRate_ e in
  mkGrain true
    (spawn_startSample e)
    (spawn_finalRate e)
    (spawn_totalSamples e)
    (spawn_totalSamples e)
    0
    (1 / IZR (spawn_totalSamples e))
    (spawn_attack e)
    (spawn_release e)
    (EngineParams.envelopeCurve (params_ e) =? 1)%Z
    (cos (spawn_panAngle e))
    (sin (spawn_panAngle e))
    (if Rlt_dec 0 bufferDurationSec
     then spawn_startSample e / IZR (sampleBufferLength_ e) else 0)
    (spawn_grainDuration e)
    (spawn_finalPan e).

Definition spawnGrain (e : GrainEngine) : GrainEngine :=
  let slot := chooseSlot (grains_ e) in
  if (slot <? 0)%Z then e
  else
    let grain := newGrain e in
    let e1 := set_rngState e (snd (spawn_rng4 e)) in
    let e2 := set_grains e1 (list_set (grains_ e) (Z.to_nat slot) grain) in
    if (grainEventCount_ e <? MAX_GRAIN_EVENTS)%Z then
      set_grainEvents e2
        (list_set (grainEvents_ e) (Z.to_nat (grainEventCount_ e))
           (GrainEvent.mk (normPos grain) (duration grain) (pan grain)))
        (grainEventCount_ e + 1)%Z
    else e2.

(** *** Per-sample grain processing *)

Definition Rltb (x y : R) : bool := if Rlt_dec x y then true else false.
Definition Rgeb (x y : R) : bool := if Rle_dec y x then true else false.

(** [sampleBuffer_[i]]; the guards of [processGrain] keep [i] inside the
    committed length. *)
Definition bufferAt (e : GrainEngine) (i : Z) : R :=
  match sampleBuffer_ e with
  | Some buf => nth (Z.to_nat i) buf 0
  | None => 0
  end.

(** [processGrain(grain, outL, outR)]: the updated grain and the stereo
    pair. *)
Definition processGrain (e : GrainEngine) (grain : Grain) : Grain * R * R :=
  let pos := position grain in
  let len := sampleBufferLength_ e in
  let sample :=
    if Rgeb pos 0 && Rltb pos (IZR (len - 1)) then
      let idx := static_cast_int pos in
      let frac := pos - IZR idx in
      bufferAt e idx * (1 - frac) + bufferAt e (idx + 1) * frac
    else if Rgeb pos 0 && Rltb pos (IZR len) then
      bufferAt e (static_cast_int pos)
    else 0 in
  let env := computeEnvelope grain in
  let sample := sample * env in
  let outL := sample * panL grain in
  let outR := sample * panR grain in
  let position' := position grain + playbackRate grain in
  let envPhase' := envPhase grain + envIncrement grain in
  let samplesRemaining' := (samplesRemaining grain - 1)%Z in
  let active' :=
    if (samplesRemaining' <=? 0)%Z || Rltb position' 0
       || Rgeb position' (IZR len)
    then false else active grain in
  (mkGrain active' position' (playbackRate grain) samplesRemaining'
     (totalSamples grain) envPhase' (envIncrement grain)
     (attackRatio grain) (releaseRatio grain) (exponentialEnv grain)
     (panL grain) (panR grain) (normPos grain) (duration grain) (pan grain),
   outL, outR).

(** The inner [for g] loop of [process] for one output sample: inactive
    slots are skipped, the others are processed and summed in index
    order. *)
Fixpoint mixGrains (e : GrainEngine) (gs : list Grain) (sumL sumR : R)
    : list Grain * R * R :=
  match gs with
  | [] => ([], sumL, sumR)
  | grain :: rest =>
      if negb (active grain) then
        let '(rest', l, r) := mixGrains e rest sumL sumR in
        (grain :: rest', l, r)
      else
        let '(grain', gL, gR) := processGrain e grain in
        let '(rest', l, r) := mixGrains e rest (sumL + gL) (sumR + gR) in
        (grain' :: rest', l, r)
  end.

(** The outer [for i] loop: [n] output samples. *)
Fixpoint mixFrames (e : GrainEngine) (n : nat) (gs : list Grain)
    : list Grain * list R * list R :=
  match n with
  | O => (gs, [], [])
  | S k =>
      let '(gs1, l, r) := mixGrains e gs 0 0 in
      let '(gs2, ls, rs) := mixFrames e k gs1 in
      (gs2, l :: ls, r :: rs)
  end.

(** *** Drift *)

Definition updateDrift (e : GrainEngine) (deltaTimeSec : R) : GrainEngine :=
  let stepSize := driftSpeed_ e * deltaTimeSec * 0.5 in
  let '(u, s) := randomFloat (rngState_ e) in
  let randomStep := (u - 0.5) * 2 * stepSize in
  let distanceFromBase := driftBasePosition_ e - driftPosition_ e in
  let returnForce :=
    distanceFromBase * driftReturnTendency_ e * deltaTimeSec * 0.5 in
  let driftPosition := driftPosition_ e + (randomStep + returnForce) in
  let driftPosition := Rmax 0 (Rmin 1 driftPosition) in
  set_drift (set_rngState e s) (isDrifting_ e) driftPosition
    (driftBasePosition_ e) (driftSpeed_ e) (driftReturnTendency_ e).

(** *** Block processing *)

(** The smoother loop of [process]: one [process()] of each smoother per
    frame. *)
Fixpoint advanceSmoothers (n : nat) (e : GrainEngine) : GrainEngine :=
  match n with
  | O => e
  | S k =>
      advanceSmoothers k
        (set_smoothers e
           (ParamSmoother.process (pitchSmoother_ e))
           (ParamSmoother.process (positionSmoother_ e))
           (ParamSmoother.process (grainSizeSmoother_ e))
           (ParamSmoother.process (panSmoother_ e))
           (ParamSmoother.process (volumeSmoother_ e)))
  end.

(** The density by which one iteration of the scheduling loop advances
    [nextGrainTime_]. *)
Definition schedule_density (e : GrainEngine) : R :=
  getModulated e (EngineParams.density (params_ e)) LFO_DENSITY
    ModScales.density 0.005 10.

(** One iteration of the body of [while (nextGrainTime_ < blockEndTime)]. *)
Definition scheduleStep (e : GrainEngine) : GrainEngine :=
  let e1 := spawnGrain e in
  set_nextGrainTime e1 (nextGrainTime_ e1 + schedule_density e1).

(** The scheduling loop; [None] when [fuel] iterations did not reach the
    exit. *)
Fixpoint scheduleGrains (fuel : nat) (blockEndTime : R) (e : GrainEngine)
    : option GrainEngine :=
  if Rlt_dec (nextGrainTime_ e) blockEndTime then
    match fuel with
    | O => None
    | S f => scheduleGrains f blockEndTime (scheduleStep e)
    end
  else Some e.

Definition is_null {A : Type} (p : option A) : bool :=
  match p with None => true | Some _ => false end.

(** The part of [process] between the early return and the scheduling
    loop: the LFO value cached for the block, the smoothers advanced, the
    drift updated. *)
Definition beginBlock (e : GrainEngine) (numFrames : Z) : GrainEngine :=
  let e1 :=
    set_currentLfoValue e (LFO.getValue (lfo_ e) (currentTime_ e)) in
  let e2 := advanceSmoothers (Z.to_nat numFrames) e1 in
  if isDrifting_ e2 && negb (isFrozen_ e2)
  then updateDrift e2 (IZR numFrames * invSampleRate_ e2)
  else e2.

(** [process(outputL, outputR, numFrames)]: the new state and the two
    output channels, of [numFrames] entries each. *)
Definition process (fuel : nat) (e : GrainEngine) (numFrames : Z)
    : option (GrainEngine * list R * list R) :=
  let n := Z.to_nat numFrames in
  if negb (isPlaying_ e) || is_null (sampleBuffer_ e)
     || (sampleBufferLength_ e =? 0)%Z
  then
    Some (set_currentTime e
            (currentTime_ e + IZR numFrames * invSampleRate_ e),
          repeat 0 n, repeat 0 n)
  else
    let e3 := beginBlock e numFrames in
    let blockEndTime := currentTime_ e3 + IZR numFrames * invSampleRate_ e3 in
    match scheduleGrains fuel blockEndTime e3 with
    | None => None
    | Some e4 =>
        let '(gs, outL, outR) := mixFrames e4 n (grains_ e4) in
        Some (set_currentTime (set_grains e4 gs) blockEndTime, outL, outR)
    end.

(** *** The rest of the public interface *)

Definition init (e : GrainEngine) (sampleRate : R) : GrainEngine :=
  let e := set_rate e sampleRate (1 / sampleRate) in
  let e := set_currentTime e 0 in
  let e := set_nextGrainTime e 0 in
  let e := set_grains e (map deactivate (grains_ e)) in
  let e := set_grainEvents e (grainEvents_ e) 0 in
  set_smoothers e
    (ParamSmoother.setImmediate
       (ParamSmoother.init (pitchSmoother_ e) sampleRate 10) 0)
    (ParamSmoother.setImmediate
       (ParamSmoother.init (positionSmoother_ e) sampleRate 10) 0)
    (ParamSmoother.setImmediate
       (ParamSmoother.init (grainSizeSmoother_ e) sampleRate 10) 0.1)
    (ParamSmoother.setImmediate
       (ParamSmoother.init (panSmoother_ e) sampleRate 10) 0)
    (ParamSmoother.setImmediate
       (ParamSmoother.init (volumeSmoother_ e) sampleRate 10) 0.8).

(** [allocateSampleBuffer(length)], the caller's copy of [data] into the
    returned storage, then [commitSampleBuffer(channels, length)]: the
    sequence the worklet runs for a [sampleBuffer] message. *)
Definition setSampleBuffer (e : GrainEngine) (data : list R) (channels : Z)
    : GrainEngine :=
  set_sampleBuffer e (Some data) (Z.of_nat (length data)) channels.

Definition start (e : GrainEngine) : GrainEngine :=
  if isPlaying_ e then e
  else set_nextGrainTime (set_isPlaying e true) (currentTime_ e).

Definition stop (e : GrainEngine) : GrainEngine :=
  set_grains (set_isPlaying e false) (map deactivate (grains_ e)).

Definition updateParams (e : GrainEngine) (params : EngineParams.t)
    : GrainEngine :=
  let e := set_params e params in
  let e :=
    set_lfo e
      (LFO.setShape (LFO.setRate (lfo_ e) (EngineParams.lfoRate params))
         (EngineParams.lfoShape params)) in
  set_smoothers e
    (ParamSmoother.setTarget (pitchSmoother_ e) (EngineParams.pitch params))
    (ParamSmoother.setTarget (positionSmoother_ e)
       (EngineParams.position params))
    (ParamSmoother.setTarget (grainSizeSmoother_ e)
       (EngineParams.grainSize params))
    (ParamSmoother.setTarget (panSmoother_ e) (EngineParams.pan params))
    (ParamSmoother.setTarget (volumeSmoother_ e)
       (EngineParams.volume params)).

Definition setFrozen (e : GrainEngine) (frozen : bool) (position : R)
    : GrainEngine :=
  if frozen then set_frozen e true position
  else set_frozen e false (frozenPosition_ e).

Definition setDrift (e : GrainEngine) (enabled : bool)
    (basePosition speed returnTendency : R) : GrainEngine :=
  if enabled
  then set_drift e true basePosition basePosition speed returnTendency
  else set_drift e false (driftPosition_ e) (driftBasePosition_ e)
         (driftSpeed_ e) (driftReturnTendency_ e).

Definition getGrainEventCount (e : GrainEngine) : Z := grainEventCount_ e.

Definition getGrainEvent (e : GrainEngine) (index : Z) : GrainEvent.t :=
  nth (Z.to_nat index) (grainEvents_ e) GrainEvent.zero.

Definition getGrainEventNormPos (e : GrainEngine) (index : Z) : R :=
  if (index <? 0)%Z || (index >=? grainEventCount_ e)%Z then 0
  else GrainEvent.normPos (getGrainEvent e index).
Definition getGrainEventDuration (e : GrainEngine) (index : Z) : R :=
  if (index <? 0)%Z || (index >=? grainEventCount_ e)%Z then 0
  else GrainEvent.duration (getGrainEvent e index).
Definition getGrainEventPan (e : GrainEngine) (index : Z) : R :=
  if (index <? 0)%Z || (index >=? grainEventCount_ e)%Z then 0
  else GrainEvent.pan (getGrainEvent e index).

Definition clearGrainEvents (e : GrainEngine) : GrainEngine :=
  set_grainEvents e (grainEvents_ e) 0.

(** The worklet's drain: read [getGrainEventCount()] events through the
    three getters, then [clearGrainEvents()]. *)
Definition drainGrainEvents (e : GrainEngine)
    : GrainEngine * list GrainEvent.t :=
  (clearGrainEvents e,
   map (fun i =>
          GrainEvent.mk (getGrainEventNormPos e (Z.of_nat i))
            (getGrainEventDuration e (Z.of_nat i))
            (getGrainEventPan e (Z.of_nat i)))
       (seq 0 (Z.to_nat (getGrainEventCount e)))).

(** *** Call histories *)

Inductive Call : Type :=
| CInit (sampleRate : R)
| CSetSampleBuffer (data : list R) (channels : Z)
| CUpdateParams (params : EngineParams.t)
| CStart
| CStop
| CSetFrozen (frozen : bool) (position : R)
| CSetDrift (enabled : bool) (basePosition speed returnTendency : R)
| CProcess (numFrames : Z)
| CDrainGrainEvents.

(** What the caller observes of a call. *)
Inductive Observation : Type :=
| ONone
| OAudio (outL outR : list R)
| OEvents (events : list GrainEvent.t).

Definition call (fuel : nat) (e : GrainEngine) (c : Call)
    : option (GrainEngine * Observation) :=
  match c with
  | CInit sr => Some (init e sr, ONone)
  | CSetSampleBuffer data ch => Some (setSampleBuffer e data ch, ONone)
  | CUpdateParams p => Some (updateParams e p, ONone)
  | CStart => Some (start e, ONone)
  | CStop => Some (stop e, ONone)
  | CSetFrozen b p => Some (setFrozen e b p, ONone)
  | CSetDrift b base sp rt => Some (setDrift e b base sp rt, ONone)
  | CProcess n =>
      match process fuel e n with
      | Some (e', outL, outR) => Some (e', OAudio outL outR)
      | None => None
      end
  | CDrainGrainEvents =>
      let '(e', evs) := drainGrainEvents e in Some (e', OEvents evs)
  end.

(** A run: the calls of a history in order, with [fuel] for the
    scheduling loop of every [process]. *)
Fixpoint run (fuel : nat) (e : GrainEngine) (history : list Call)
    : option (GrainEngine * list Observation) :=
  match history with
  | [] => Some (e, [])
  | c :: rest =>
      match call fuel e c with
      | None => None
      | Some (e1, o) =>
          match run fuel e1 rest with
          | None => None
          | Some (e2, os) => Some (e2, o :: os)
          end
      end
  end.

(** ** Auxiliary definitions used by the statements *)

(** The envelope of a grain as a function of the phase. *)
Definition with_envPhase (g : Grain) (phase : R) : Grain :=
  mkGrain (active g) (position g) (playbackRate g) (samplesRemaining g)
    (totalSamples g) phase (envIncrement g) (attackRatio g)
    (releaseRatio g) (exponentialEnv g) (panL g) (panR g) (normPos g)
    (duration g) (pan g).

Definition envelopeAt (g : Grain) (phase : R) : R :=
  computeEnvelope (with_envPhase g phase).

(** [k] successive [processGrain] calls on one grain. *)
Fixpoint processGrain_n (e : GrainEngine) (k : nat) (g : Grain) : Grain :=
  match k with
  | O => g
  | S j => processGrain_n e j (fst (fst (processGrain e g)))
  end.

Definition activeCount (gs : list Grain) : nat :=
  length (filter active gs).


(** Rounding to the nearest integer (of a non-negative real), and the
    sample count as the specification words it:
    [max(1, round(grainSize * sampleRate))]. *)
Definition round_nearest (x : R) : Z := Int_part (x + 1 / 2).
Definition spec_samplesTotal (grainSize sampleRate : R) : Z :=
  Z.max 1 (round_nearest (grainSize * sampleRate)).

(** [n] zero samples: an output channel after the [memset]. *)
Definition silence (numFrames : Z) : list R := repeat 0 (Z.to_nat numFrames).

(** The stored reciprocal agrees with the stored sample rate (both are
    written together, by the constructor and by [init]). *)
Definition rate_consistent (e : GrainEngine) : Prop :=
  invSampleRate_ e = 1 / sampleRate_ e.


(** *** Example states *)

(** A grain with the given envelope parameters. *)
Definition envGrain (a r : R) (expo : bool) : Grain :=
  mkGrain true 0 1 480 480 0 (1 / 480) a r expo 1 0 0 0.01 (-1).

(** A pool whose 128 slots are active and hold [INT32_MAX] remaining
    samples. *)
Definition saturatedGrain : Grain :=
  mkGrain true 0 1 INT32_MAX INT32_MAX (1 / 2) 0 0.5 0.5 false 1 0 0 0.01 (-1).
Definition saturatedEngine : GrainEngine :=
  set_grains GrainEngine_new (repeat saturatedGrain (Z.to_nat MAX_GRAINS)).

(** A pool with one free slot (index 2) and one with none. *)
Definition agedGrain (remaining : Z) : Grain :=
  mkGrain true 0 1 remaining 480 (1 / 2) 0 0.5 0.5 false 1 0 0 0.01 (-1).
Definition poolWithFreeSlot : list Grain :=
  agedGrain 7 :: agedGrain 3 :: repeat zeroGrain 126.
Definition poolFull : list Grain :=
  agedGrain 7 :: agedGrain 3 :: agedGrain 5 :: repeat (agedGrain 9) 125.

(** Parameters with a zero density and no LFO target. *)
Definition zeroDensityParams : EngineParams.t :=
  EngineParams.mk 0.3 0 0 0 0 0 0 0 0 0 0 0.5 0.5 0 1 0 0 0 0.8.

(** The engine after [init(48000)], a two-sample buffer, the parameters
    above and [start()]. *)
Definition zeroDensityEngine : GrainEngine :=
  start (updateParams
           (setSampleBuffer (init GrainEngine_new 48000) [1; 1] 1)
           zeroDensityParams).

(** A state with a negative sample rate, playing, with a two-sample
    buffer and one sounding grain in slot 0. *)
Definition soundingGrain : Grain :=
  mkGrain true 0 (1 / 2) 10 20 (1 / 2) (1 / 20) 0.1 0.1 false 1 0 0 0.01 (-1).
Definition negativeRateEngine : GrainEngine :=
  set_grains
    (set_isPlaying
       (set_sampleBuffer (set_rate GrainEngine_new (-1) (-1)) (Some [1; 1]) 2 1)
       true)
    (soundingGrain :: repeat zeroGrain 127).


(** ** The worklet's parameter conversion (grain-processor worklet)

    The [params] message handler turns the [lfoTargets] array of names into
    the engine's bit-mask ([mask |= targetMap[t]] for every known name) and
    the shape name into the integer [lfo_] stores. *)

From Stdlib Require String.

Module Worklet.

Import String.

(** [targetMap[t]]: [None] stands for [undefined]. *)
Definition targetMap (t : string) : option Z :=
  if (t =? "grainSize")%string then Some (Z.shiftl 1 0)
  else if (t =? "density")%string then Some (Z.shiftl 1 1)
  else if (t =? "spread")%string then Some (Z.shiftl 1 2)
  else if (t =? "position")%string then Some (Z.shiftl 1 3)
  else if (t =? "pitch")%string then Some (Z.shiftl 1 4)
  else if (t =? "fmFreq")%string then Some (Z.shiftl 1 5)
  else if (t =? "fmAmount")%string then Some (Z.shiftl 1 6)
  else if (t =? "filterFreq")%string then Some (Z.shiftl 1 7)
  else if (t =? "filterRes")%string then Some (Z.shiftl 1 8)
  else if (t =? "attack")%string then Some (Z.shiftl 1 9)
  else if (t =? "release")%string then Some (Z.shiftl 1 10)
  else if (t =? "distAmount")%string then Some (Z.shiftl 1 11)
  else if (t =? "delayMix")%string then Some (Z.shiftl 1 12)
  else if (t =? "delayTime")%string then Some (Z.shiftl 1 13)
  else if (t =? "delayFeedback")%string then Some (Z.shiftl 1 14)
  else if (t =? "pan")%string then Some (Z.shiftl 1 15)
  else if (t =? "panSpread")%string then Some (Z.shiftl 1 16)
  else None.

(** The loop [for (const t of p.lfoTargets) ...] from [mask = 0]. *)
Definition lfoTargetsToMask (lfoTargets : list string) : Z :=
  fold_left
    (fun mask t =>
       match targetMap t with
       | Some bit => Z.lor mask bit
       | None => mask
       end)
    lfoTargets 0%Z.

(** [shapeMap[p.lfoShape] || 0]. *)
Definition lfoShapeToInt (lfoShape : string) : Z :=
  if (lfoShape =? "sine")%string then 0
  else if (lfoShape =? "triangle")%string then 1
  else if (lfoShape =? "square")%string then 2
  else if (lfoShape =? "sawtooth")%string then 3
  else 0.

End Worklet.

(** ** Predicates used by the further properties *)


(** The events a drain would return: the first [grainEventCount_] entries
    of the array. *)
Definition pendingEvents (e : GrainEngine) : list GrainEvent.t :=
  firstn (Z.to_nat (grainEventCount_ e)) (grainEvents_ e).

(** The event array has its 64 entries and the count stays within it. *)
Definition events_wf (e : GrainEngine) : Prop :=
  length (grainEvents_ e) = Z.to_nat MAX_GRAIN_EVENTS
  /\ (0 <= grainEventCount_ e <= MAX_GRAIN_EVENTS)%Z.

(** The event [spawnGrain] emits for the grain it writes. *)
Definition eventOf (g : Grain) : GrainEvent.t :=
  GrainEvent.mk (normPos g) (duration g) (pan g).


(** Every sample of the committed buffer has magnitude at most [M]. *)
Definition bufferBounded (e : GrainEngine) (M : R) : Prop :=
  forall i : Z, Rabs (bufferAt e i) <= M.

(** * Verification *)

(** Case analysis on every real comparison of the goal. *)
Ltac case_Rdec :=
  repeat match goal with
  | |- context [Rlt_dec ?a ?b] => destruct (Rlt_dec a b)
  | |- context [Rle_dec ?a ?b] => destruct (Rle_dec a b)
  end.

(** ** Parameter smoother *)

Section Smoother.

Import ParamSmoother.

Lemma process_keeps_target (s : t) : target_ (process s) = target_ s.
Proof. reflexivity. Qed.

Lemma process_keeps_coeff (s : t) : coeff_ (process s) = coeff_ s.
Proof. reflexivity. Qed.

Lemma process_n_keeps_target (n : nat) (s : t) :
  target_ (process_n n s) = target_ s.
Proof.
  revert s; induction n as [|n IH]; intro s; simpl; [reflexivity|].
  now rewrite IH.
Qed.

(** One step contracts the distance to the target by [1 - coeff_]. *)
Lemma process_error (s : t) :
  current_ (process s) - target_ (process s)
  = (current_ s - target_ s) * (1 - coeff_ s).
Proof. simpl; ring. Qed.

Lemma process_n_error (n : nat) (s : t) :
  current_ (process_n n s) - target_ s
  = (current_ s - target_ s) * (1 - coeff_ s) ^ n.
Proof.
  revert s; induction n as [|n IH]; intro s.
  - simpl; ring.
  - cbn [process_n]. rewrite <- (process_keeps_target s) at 1.
    rewrite IH, process_error, process_keeps_coeff. simpl; ring.
Qed.

(** The coefficient [init] computes for a positive rate and time. *)
Lemma init_coeff (s : t) (sampleRate smoothTimeMs : R) :
  0 < sampleRate -> 0 < smoothTimeMs ->
  coeff_ (init s sampleRate smoothTimeMs)
  = 1 - exp (- 1 / (sampleRate * smoothTimeMs / 1000)).
Proof.
  intros Hsr Hms. unfold init, setSmoothTime. cbn [sampleRate_].
  destruct (Rlt_dec 0 sampleRate); [|lra].
  destruct (Rlt_dec 0 smoothTimeMs); [|lra].
  cbn [coeff_].
  replace (sampleRate * smoothTimeMs * 0.001)
    with (sampleRate * smoothTimeMs / 1000) by lra.
  reflexivity.
Qed.

Lemma init_coeff_range (s : t) (sampleRate smoothTimeMs : R) :
  0 < sampleRate -> 0 < smoothTimeMs ->
  0 < coeff_ (init s sampleRate smoothTimeMs) < 1.
Proof.
  intros Hsr Hms. rewrite init_coeff by assumption.
  set (x := - 1 / (sampleRate * smoothTimeMs / 1000)).
  assert (Hx : x < 0).
  { unfold x. unfold Rdiv at 1.
    assert (0 < / (sampleRate * smoothTimeMs / 1000)).
    { apply Rinv_0_lt_compat. nra. }
    nra. }
  pose proof (exp_pos x). pose proof (exp_increasing x 0 Hx) as Hlt.
  rewrite exp_0 in Hlt. lra.
Qed.

Lemma setImmediate_fixed (s : t) (v : R) (k : nat) :
  current_ (process_n k (setImmediate s v)) = v
  /\ target_ (process_n k (setImmediate s v)) = v.
Proof.
  assert (G : forall k s, current_ s = v -> target_ s = v ->
            current_ (process_n k s) = v /\ target_ (process_n k s) = v).
  { clear. induction k as [|k IH]; intros s Hc Ht; [now split|].
    cbn [process_n]. apply IH; simpl; rewrite ?Hc, ?Ht; lra. }
  apply G; reflexivity.
Qed.

End Smoother.

(** C8.  A smoother initialised with a positive sample rate and a positive
    smoothing time has the coefficient
    [c = 1 - exp(-1 / (sampleRate * smoothTimeMs / 1000))], which lies
    strictly between 0 and 1; from any current value [initial] and with the
    target held at [target], after [N] calls of [process] the distance to
    the target is at most [|initial - target| * (1 - c)^N]; and after
    [setImmediate(v)] every later [process] returns exactly [v]. *)
Theorem smoother_converges
    (s : ParamSmoother.t) (sampleRate smoothTimeMs initial target v : R)
    (N : nat) :
  0 < sampleRate -> 0 < smoothTimeMs ->
  let s0 := ParamSmoother.init s sampleRate smoothTimeMs in
  let c := ParamSmoother.coeff_ s0 in
  let s1 := ParamSmoother.setTarget (ParamSmoother.setImmediate s0 initial)
              target in
  c = 1 - exp (- 1 / (sampleRate * smoothTimeMs / 1000))
  /\ 0 < c < 1
  /\ Rabs (ParamSmoother.getCurrent (ParamSmoother.process_n N s1) - target)
     <= Rabs (initial - target) * (1 - c) ^ N
  /\ ParamSmoother.getCurrent
       (ParamSmoother.process_n (S N) (ParamSmoother.setImmediate s0 v)) = v.
Proof.
  intros Hsr Hms s0 c s1.
  assert (Hc : 0 < c < 1) by (apply init_coeff_range; assumption).
  split; [apply init_coeff; assumption|].
  split; [exact Hc|]. split.
  - unfold ParamSmoother.getCurrent.
    replace target with (ParamSmoother.target_ s1) at 1 by reflexivity.
    rewrite process_n_error. cbn [s1 ParamSmoother.setTarget
      ParamSmoother.setImmediate ParamSmoother.current_
      ParamSmoother.target_ ParamSmoother.coeff_].
    fold c. rewrite Rabs_mult.
    rewrite (Rabs_pos_eq ((1 - c) ^ N)); [lra|].
    apply pow_le; lra.
  - apply setImmediate_fixed.
Qed.

(** The statement above at 48 kHz with the engine's 10 ms smoothing. *)
Lemma smoother_converges_witness :
  Rabs (ParamSmoother.getCurrent
          (ParamSmoother.process_n 3
             (ParamSmoother.setTarget
                (ParamSmoother.setImmediate
                   (ParamSmoother.init ParamSmoother.default 48000 10) 0) 1))
        - 1)
  <= Rabs (0 - 1)
     * (1 - ParamSmoother.coeff_
              (ParamSmoother.init ParamSmoother.default 48000 10)) ^ 3.
Proof.
  assert (H1 : 0 < 48000) by lra.
  assert (H2 : 0 < 10) by lra.
  exact (proj1 (proj2 (proj2
           (smoother_converges ParamSmoother.default 48000 10 0 1 0 3 H1 H2)))).
Defined.

(** ** Envelope *)

Ltac unfold_envelope :=
  unfold envelopeAt, computeEnvelope, fadeRatio, epsilon;
  cbn [envPhase attackRatio releaseRatio exponentialEnv with_envPhase].

(** The phase of the release as the code computes it, for [r > 0]. *)
Lemma release_phase_bounds (a r : R) :
  0.01 <= a <= 0.9 -> 0.01 <= r <= 0.9 -> 1 - r <= a ->
  0 <= (a - (1 - r)) / r <= 8 / 9.
Proof.
  intros Ha Hr Har.
  assert (Hq : 0 < / r) by (apply Rinv_0_lt_compat; lra).
  assert (Hrq : r * / r = 1) by (apply Rinv_r; lra).
  unfold Rdiv. split; [nra|].
  assert (H9 : (1 - a) * / r >= 1 / 9).
  { assert (/ r >= / 0.9).
    { apply Rle_ge, Rinv_le_contravar; lra. }
    assert (/ 0.9 = 10 / 9) by (field_simplify; lra).
    nra. }
  nra.
Qed.

Lemma envelope_at_zero (g : Grain) : envelopeAt g 0 = 0.
Proof. unfold_envelope. case_Rdec; lra. Qed.

Lemma envelope_at_fade (g : Grain) :
  fadeRatio < attackRatio g -> envelopeAt g fadeRatio = 0.001.
Proof.
  unfold_envelope. intros Ha. case_Rdec; try lra.
  destruct (exponentialEnv g); unfold Rdiv; ring.
Qed.

Lemma envelope_at_attack_end (g : Grain) :
  0.01 <= attackRatio g <= 0.9 -> 0.01 <= releaseRatio g <= 0.9 ->
  0.001 <= envelopeAt g (attackRatio g) <= 1.
Proof.
  intros Ha Hr. unfold_envelope. case_Rdec; try lra.
  pose proof (release_phase_bounds _ _ Ha Hr ltac:(lra)) as Ht.
  set (t := (attackRatio g - (1 - releaseRatio g)) / releaseRatio g) in *.
  rewrite Rmin_right by lra.
  destruct (exponentialEnv g); nra.
Qed.

Lemma envelope_at_release_start (g : Grain) :
  0.01 <= attackRatio g <= 0.9 -> 0.01 <= releaseRatio g <= 0.9 ->
  attackRatio g + releaseRatio g <= 1 ->
  envelopeAt g (1 - releaseRatio g) = 1.
Proof.
  intros Ha Hr Har. unfold_envelope. case_Rdec; try lra.
  replace (1 - releaseRatio g - (1 - releaseRatio g)) with 0 by ring.
  unfold Rdiv. rewrite Rmult_0_l, Rmin_right by lra.
  destruct (exponentialEnv g); ring.
Qed.

Lemma envelope_at_one (g : Grain) :
  0.01 <= attackRatio g <= 0.9 -> 0.01 <= releaseRatio g <= 0.9 ->
  envelopeAt g 1 = 0.
Proof.
  intros Ha Hr. unfold_envelope. case_Rdec; try lra.
  replace ((1 - (1 - releaseRatio g)) / releaseRatio g) with 1
    by (field; lra).
  rewrite Rmin_left by lra.
  destruct (exponentialEnv g); ring.
Qed.

(** C2 (as the code has it).  For attack and release ratios in
    [[0.01, 0.9]] and both envelope shapes: [env(0) = 0];
    [env(fadeRatio) = 0.001] when the attack ratio exceeds [fadeRatio];
    [env(attackRatio)] lies in [[0.001, 1]]; [env(1 - releaseRatio) = 1]
    when [attackRatio + releaseRatio <= 1]; and [env(1) = 0]. *)
Theorem envelope_boundary_values (g : Grain) :
  0.01 <= attackRatio g <= 0.9 -> 0.01 <= releaseRatio g <= 0.9 ->
  envelopeAt g 0 = 0
  /\ (fadeRatio < attackRatio g -> envelopeAt g fadeRatio <= 0.001)
  /\ 0.001 <= envelopeAt g (attackRatio g) <= 1
  /\ (attackRatio g + releaseRatio g <= 1 ->
      envelopeAt g (1 - releaseRatio g) = 1)
  /\ envelopeAt g 1 <= 0.001.
Proof.
  intros Ha Hr. split; [apply envelope_at_zero|].
  split; [intro H; rewrite envelope_at_fade by exact H; lra|].
  split; [apply envelope_at_attack_end; assumption|].
  split; [apply envelope_at_release_start; assumption|].
  rewrite envelope_at_one by assumption. lra.
Qed.

(** The boundary values for a triangular grain, attack 0.5 and release
    0.5. *)
Lemma envelope_boundary_values_witness :
  envelopeAt (envGrain 0.5 0.5 false) (1 - 0.5) = 1.
Proof.
  assert (Ha : 0.01 <= attackRatio (envGrain 0.5 0.5 false) <= 0.9)
    by (simpl; lra).
  assert (Hr : 0.01 <= releaseRatio (envGrain 0.5 0.5 false) <= 0.9)
    by (simpl; lra).
  assert (Har : attackRatio (envGrain 0.5 0.5 false)
                + releaseRatio (envGrain 0.5 0.5 false) <= 1)
    by (simpl; lra).
  exact (proj1 (proj2 (proj2 (proj2
           (envelope_boundary_values (envGrain 0.5 0.5 false) Ha Hr)))) Har).
Defined.

(** C2, refuted as stated.  Both grains below have their ratios in
    [[0.01, 0.9]]; with [attackRatio = 0.01] the envelope at [fadeRatio]
    is already 1, above the 0.001 floor, and with
    [attackRatio = releaseRatio = 0.9] the envelope at [1 - releaseRatio]
    is still in the attack and is not 1. *)
Lemma envelope_boundary_claim_fails :
  (0.01 <= attackRatio (envGrain 0.01 0.5 false) <= 0.9
   /\ 0.01 <= releaseRatio (envGrain 0.01 0.5 false) <= 0.9
   /\ ~ (envelopeAt (envGrain 0.01 0.5 false) fadeRatio <= 0.001))
  /\ (0.01 <= attackRatio (envGrain 0.9 0.9 false) <= 0.9
      /\ 0.01 <= releaseRatio (envGrain 0.9 0.9 false) <= 0.9
      /\ envelopeAt (envGrain 0.9 0.9 false)
           (1 - releaseRatio (envGrain 0.9 0.9 false)) <> 1).
Proof.
  split; (split; [simpl; lra|]); (split; [simpl; lra|]).
  - unfold envGrain. unfold_envelope. case_Rdec; lra.
  - unfold envGrain. unfold_envelope. case_Rdec; lra.
Qed.

(** *** The attack-release transition when [attackRatio + releaseRatio > 1] *)

(** With [a + r > 1] no phase falls in the sustain branch. *)
Lemma sustain_region_empty (g : Grain) (phase : R) :
  attackRatio g + releaseRatio g > 1 ->
  ~ (attackRatio g <= phase < 1 - releaseRatio g).
Proof. intros H [H1 H2]. lra. Qed.

(** Just below [attackRatio] the envelope is in the attack and tends
    to 1. *)
Lemma envelope_left_limit_at_attack_end (g : Grain) :
  0.01 <= attackRatio g <= 0.9 -> 0.01 <= releaseRatio g <= 0.9 ->
  attackRatio g + releaseRatio g > 1 ->
  forall eps : R, 0 < eps ->
  exists delta : R, 0 < delta /\
    forall phase : R,
      attackRatio g - delta < phase < attackRatio g ->
      Rabs (envelopeAt g phase - 1) < eps.
Proof.
  intros Ha Hr Har eps Heps.
  exists (Rmin (9 / 100) (eps * 9 / 200)). split.
  { apply Rmin_glb_lt; lra. }
  intros phase [Hlo Hhi].
  pose proof (Rmin_l (9 / 100) (eps * 9 / 200)) as Hd1.
  pose proof (Rmin_r (9 / 100) (eps * 9 / 200)) as Hd2.
  set (delta := Rmin (9 / 100) (eps * 9 / 200)) in *.
  set (d := attackRatio g - 0.01).
  assert (Hd : 9 / 100 < d) by (unfold d; lra).
  assert (Hq : 0 < / d) by (apply Rinv_0_lt_compat; lra).
  assert (Hdq : d * / d = 1) by (apply Rinv_r; lra).
  assert (Hq9 : / d < 100 / 9).
  { replace (100 / 9) with (/ (9 / 100)) by (field_simplify; lra).
    apply Rinv_lt_contravar; nra. }
  unfold_envelope. case_Rdec; try lra.
  fold d. unfold Rdiv.
  set (t := (phase - 0.01) * / d).
  assert (Ht1 : 1 - t = (attackRatio g - phase) * / d).
  { unfold t. replace (attackRatio g - phase) with (d - (phase - 0.01))
      by (unfold d; ring). nra. }
  assert (Ht0 : 0 <= t) by (unfold t; nra).
  assert (Ht2 : 0 < 1 - t) by (rewrite Ht1; nra).
  assert (Ht3 : 1 - t < delta * (100 / 9)) by (rewrite Ht1; nra).
  apply Rabs_def1; destruct (exponentialEnv g); nra.
Qed.

(** At [attackRatio] itself the envelope is already in the release, at
    [(1 - a) / r] (squared for the quadratic shape), which is below 1. *)
Lemma envelope_value_at_attack_end (g : Grain) :
  0.01 <= attackRatio g <= 0.9 -> 0.01 <= releaseRatio g <= 0.9 ->
  attackRatio g + releaseRatio g > 1 ->
  envelopeAt g (attackRatio g)
  = (if exponentialEnv g
     then ((1 - attackRatio g) / releaseRatio g)
          * ((1 - attackRatio g) / releaseRatio g)
     else (1 - attackRatio g) / releaseRatio g)
  /\ envelopeAt g (attackRatio g) < 1.
Proof.
  intros Ha Hr Har.
  pose proof (release_phase_bounds _ _ Ha Hr ltac:(lra)) as Ht.
  assert (E : 1 - (attackRatio g - (1 - releaseRatio g)) / releaseRatio g
              = (1 - attackRatio g) / releaseRatio g) by (field; lra).
  assert (Hpos : 0 < (attackRatio g - (1 - releaseRatio g)) / releaseRatio g).
  { apply Rdiv_lt_0_compat; lra. }
  unfold_envelope. case_Rdec; try lra.
  rewrite Rmin_right by lra.
  set (t := (attackRatio g - (1 - releaseRatio g)) / releaseRatio g) in *.
  rewrite <- E. destruct (exponentialEnv g); split; try reflexivity; nra.
Qed.

(** From [attackRatio] onwards the envelope is the release ramp, which is
    continuous: the right limit at [attackRatio] is the value there. *)
Lemma envelope_right_limit_at_attack_end (g : Grain) :
  0.01 <= attackRatio g <= 0.9 -> 0.01 <= releaseRatio g <= 0.9 ->
  attackRatio g + releaseRatio g > 1 ->
  forall eps : R, 0 < eps ->
  exists delta : R, 0 < delta /\
    forall phase : R,
      attackRatio g <= phase < attackRatio g + delta ->
      Rabs (envelopeAt g phase - envelopeAt g (attackRatio g)) < eps.
Proof.
  intros Ha Hr Har eps Heps.
  exists (eps / 400). split; [lra|].
  intros phase [Hlo Hhi].
  set (r := releaseRatio g) in *. set (a := attackRatio g) in *.
  assert (Hq : 0 < / r) by (apply Rinv_0_lt_compat; lra).
  assert (Hrq : r * / r = 1) by (apply Rinv_r; lra).
  assert (Hq100 : / r <= 100).
  { replace 100 with (/ 0.01) by (field_simplify; lra).
    apply Rinv_le_contravar; lra. }
  unfold_envelope. fold a r. case_Rdec; try lra.
  unfold Rdiv.
  set (t := (phase - (1 - r)) * / r). set (t0 := (a - (1 - r)) * / r).
  assert (Htt : t - t0 = (phase - a) * / r) by (unfold t, t0; ring).
  assert (Ht0 : 0 <= t0) by (unfold t0; nra).
  assert (Hle : t0 <= t) by nra.
  assert (Hdiff : t - t0 < eps / 4) by (rewrite Htt; nra).
  assert (M0 : 0 <= Rmin 1 t0 <= 1).
  { split; [apply Rmin_glb; lra | apply Rmin_l]. }
  assert (M1 : 0 <= Rmin 1 t <= 1).
  { split; [apply Rmin_glb; lra | apply Rmin_l]. }
  assert (M2 : Rmin 1 t0 <= Rmin 1 t).
  { apply Rle_min_compat_l; exact Hle. }
  assert (M3 : Rmin 1 t - Rmin 1 t0 <= t - t0).
  { unfold Rmin. case_Rdec; lra. }
  apply Rabs_def1; destruct (exponentialEnv g); nra.
Qed.

(** C5 (the code at [attackRatio = releaseRatio = 0.9], linear shape).
    The sustain region is empty and the envelope passes from attack to
    release, but not continuously: just below phase 0.9 the envelope tends
    to 1, while at 0.9 and just above it is the release ramp, whose value
    at 0.9 is 1/9. *)
Theorem envelope_jump_at_attack_end :
  (forall phase : R,
     ~ (attackRatio (envGrain 0.9 0.9 false) <= phase
        < 1 - releaseRatio (envGrain 0.9 0.9 false)))
  /\ (forall eps : R, 0 < eps ->
      exists delta : R, 0 < delta /\
        forall phase : R, 0.9 - delta < phase < 0.9 ->
          Rabs (envelopeAt (envGrain 0.9 0.9 false) phase - 1) < eps)
  /\ (forall eps : R, 0 < eps ->
      exists delta : R, 0 < delta /\
        forall phase : R, 0.9 <= phase < 0.9 + delta ->
          Rabs (envelopeAt (envGrain 0.9 0.9 false) phase - 1 / 9) < eps)
  /\ envelopeAt (envGrain 0.9 0.9 false) 0.9 = 1 / 9
  /\ ~ continuity_pt (envelopeAt (envGrain 0.9 0.9 false)) 0.9.
Proof.
  set (g := envGrain 0.9 0.9 false).
  assert (Ha : 0.01 <= attackRatio g <= 0.9) by (simpl; lra).
  assert (Hr : 0.01 <= releaseRatio g <= 0.9) by (simpl; lra).
  assert (Har : attackRatio g + releaseRatio g > 1) by (simpl; lra).
  assert (Hv : envelopeAt g 0.9 = 1 / 9).
  { destruct (envelope_value_at_attack_end g Ha Hr Har) as [E _].
    cbn [g envGrain attackRatio releaseRatio exponentialEnv] in E.
    rewrite E. lra. }
  pose proof (envelope_left_limit_at_attack_end g Ha Hr Har) as HL.
  pose proof (envelope_right_limit_at_attack_end g Ha Hr Har) as HR.
  cbn [g envGrain attackRatio] in HL, HR. fold g in HL, HR.
  rewrite Hv in HR.
  split; [intro phase; apply sustain_region_empty; exact Har|].
  split; [exact HL|]. split; [exact HR|]. split; [exact Hv|].
  intro Hcont.
  destruct (Hcont (1 / 2) ltac:(lra)) as [alp [Halp Hc]].
  destruct (HL (1 / 4) ltac:(lra)) as [delta [Hdelta Hl]].
  pose proof (Rmin_l alp delta) as Hm1.
  pose proof (Rmin_r alp delta) as Hm2.
  assert (Hm : 0 < Rmin alp delta) by (apply Rmin_glb_lt; lra).
  set (m := Rmin alp delta) in *.
  assert (Hl' : Rabs (envelopeAt g (0.9 - m / 2) - 1) < 1 / 4).
  { apply Hl. lra. }
  assert (Hc' : Rabs (envelopeAt g (0.9 - m / 2) - 1 / 9) < 1 / 2).
  { rewrite <- Hv. apply (Hc (0.9 - m / 2)). split.
    - split; [exact I|]. lra.
    - cbn [dist R_met]. unfold Rdist. apply Rabs_def1; lra. }
  apply Rabs_def2 in Hl'. apply Rabs_def2 in Hc'. lra.
Qed.

(** ** Conversions *)

Lemma Int_part_of (x : R) (z : Z) :
  IZR z <= x < IZR z + 1 -> Int_part x = z.
Proof. intros [H1 H2]. symmetry. apply Int_part_spec. lra. Qed.

(** [static_cast_int] truncates toward zero: the result is no larger in
    magnitude than the argument and less than 1 away from it. *)
Lemma static_cast_int_truncates (x : R) :
  Rabs (IZR (static_cast_int x)) <= Rabs x
  /\ Rabs (x - IZR (static_cast_int x)) < 1.
Proof.
  unfold static_cast_int. destruct (Rle_dec 0 x) as [Hx|Hx].
  - destruct (base_Int_part x) as [H1 H2].
    assert (H0 : 0 <= IZR (Int_part x)).
    { apply IZR_le. destruct (Z_lt_le_dec (Int_part x) 0) as [Hn|Hn];
        [|exact Hn].
      exfalso. assert (Int_part x <= -1)%Z as Hle by lia.
      apply IZR_le in Hle. lra. }
    rewrite !Rabs_pos_eq by lra. lra.
  - destruct (base_Int_part (- x)) as [H1 H2].
    assert (H0 : 0 <= IZR (Int_part (- x))).
    { apply IZR_le. destruct (Z_lt_le_dec (Int_part (- x)) 0) as [Hn|Hn];
        [|exact Hn].
      exfalso. assert (Int_part (- x) <= -1)%Z as Hle by lia.
      apply IZR_le in Hle. lra. }
    rewrite opp_IZR. split.
    + rewrite Rabs_Ropp, Rabs_pos_eq by lra.
      rewrite Rabs_left1 by lra. lra.
    + apply Rabs_def1; lra.
Qed.

(** ** The grain written by a spawn *)

(** *** Duration *)

(** C4 (as the code has it).  With [grainDuration] the modulated grain size
    clamped to at least 0.01 s, the total sample count of a spawned grain is
    [max(1, static_cast<int>(grainDuration * sampleRate))], where the
    conversion truncates toward zero; [samplesRemaining] starts at the same
    value. *)
Theorem spawn_totalSamples_truncated (e : GrainEngine) :
  let grainDuration := Rmax 0.01 (spawn_grainSize e) in
  let x := grainDuration * sampleRate_ e in
  0.01 <= grainDuration
  /\ totalSamples (newGrain e) = Z.max 1 (static_cast_int x)
  /\ samplesRemaining (newGrain e) = totalSamples (newGrain e)
  /\ Rabs (IZR (static_cast_int x)) <= Rabs x
  /\ Rabs (x - IZR (static_cast_int x)) < 1.
Proof.
  intros grainDuration x.
  split; [apply Rmax_l|].
  split.
  - cbn [newGrain totalSamples]. unfold spawn_totalSamples, spawn_grainDuration.
    fold grainDuration. fold x.
    destruct (static_cast_int x <? 1)%Z eqn:E.
    + apply Z.ltb_lt in E. lia.
    + apply Z.ltb_ge in E. lia.
  - split; [reflexivity|]. apply static_cast_int_truncates.
Qed.

(** The state after [init(44106)]: the grain-size smoother holds 0.1 s and
    no LFO target is set. *)
Lemma init_44106_grainDuration :
  spawn_grainDuration (init GrainEngine_new 44106) = 0.1.
Proof.
  unfold spawn_grainDuration, spawn_grainSize, getModulated.
  replace (Z.land (EngineParams.lfoTargetMask
                     (params_ (init GrainEngine_new 44106)))
             LFO_GRAIN_SIZE =? 0)%Z with true by reflexivity.
  replace (ParamSmoother.getCurrent
             (grainSizeSmoother_ (init GrainEngine_new 44106)))
    with 0.1 by reflexivity.
  apply Rmax_right. lra.
Qed.

(** C4, refuted as stated: after [init(44106)] a spawn has
    [grainDuration * sampleRate = 4410.6]; the code stores 4410 samples,
    rounding to the nearest integer gives 4411. *)
Lemma spawn_totalSamples_not_rounded :
  totalSamples (newGrain (init GrainEngine_new 44106)) = 4410%Z
  /\ spec_samplesTotal (spawn_grainDuration (init GrainEngine_new 44106))
       (sampleRate_ (init GrainEngine_new 44106)) = 4411%Z
  /\ totalSamples (newGrain (init GrainEngine_new 44106))
     <> spec_samplesTotal (spawn_grainDuration (init GrainEngine_new 44106))
          (sampleRate_ (init GrainEngine_new 44106)).
Proof.
  assert (H1 : totalSamples (newGrain (init GrainEngine_new 44106)) = 4410%Z).
  { cbn [newGrain totalSamples]. unfold spawn_totalSamples.
    rewrite init_44106_grainDuration.
    replace (sampleRate_ (init GrainEngine_new 44106)) with 44106
      by reflexivity.
    unfold static_cast_int. destruct (Rle_dec 0 (0.1 * 44106)); [|lra].
    rewrite (Int_part_of (0.1 * 44106) 4410) by lra. reflexivity. }
  assert (H2 : spec_samplesTotal
                 (spawn_grainDuration (init GrainEngine_new 44106))
                 (sampleRate_ (init GrainEngine_new 44106)) = 4411%Z).
  { rewrite init_44106_grainDuration.
    replace (sampleRate_ (init GrainEngine_new 44106)) with 44106
      by reflexivity.
    unfold spec_samplesTotal, round_nearest.
    rewrite (Int_part_of (0.1 * 44106 + 1 / 2) 4411) by lra. reflexivity. }
  split; [exact H1|]. split; [exact H2|].
  rewrite H1, H2. discriminate.
Qed.

(** *** Playback rate *)

Lemma spawn_finalRate_floor (e : GrainEngine) :
  0.1 <= Rabs (spawn_finalRate e).
Proof.
  unfold spawn_finalRate.
  pose proof (Rmax_l 0.1 (Rabs (spawn_rate e + spawn_fmMod e))) as H.
  destruct (spawn_reversed e).
  - rewrite Rabs_Ropp, Rabs_pos_eq; lra.
  - rewrite Rabs_pos_eq; lra.
Qed.

Lemma processGrain_position (eng : GrainEngine) (g : Grain) :
  position (fst (fst (processGrain eng g))) = position g + playbackRate g.
Proof. reflexivity. Qed.

Lemma processGrain_playbackRate (eng : GrainEngine) (g : Grain) :
  playbackRate (fst (fst (processGrain eng g))) = playbackRate g.
Proof. reflexivity. Qed.

Lemma processGrain_n_S (eng : GrainEngine) (k : nat) (g : Grain) :
  processGrain_n eng (S k) g
  = processGrain_n eng k (fst (fst (processGrain eng g))).
Proof. reflexivity. Qed.

Lemma processGrain_n_playbackRate (eng : GrainEngine) (k : nat) (g : Grain) :
  playbackRate (processGrain_n eng k g) = playbackRate g.
Proof.
  revert g; induction k as [|k IH]; intro g; [reflexivity|].
  cbn [processGrain_n]. rewrite IH. apply processGrain_playbackRate.
Qed.

(** C10.  The grain written by a spawn has [|playbackRate| >= 0.1]: the
    magnitude is [max(0.1, |rate + fmMod|)] on every spawn, where [fmMod]
    is 0 unless the FM amount is positive; and every [processGrain] of that
    grain keeps the rate and moves the read position by it, hence by at
    least 0.1 samples. *)
Theorem spawn_rate_at_least_tenth (e eng : GrainEngine) (k : nat) :
  0.1 <= Rabs (playbackRate (newGrain e))
  /\ Rabs (playbackRate (newGrain e))
     = Rmax 0.1 (Rabs (spawn_rate e + spawn_fmMod e))
  /\ (spawn_fmMod e = 0 \/ 0 < spawn_fmAmount e)
  /\ playbackRate (processGrain_n eng k (newGrain e))
     = playbackRate (newGrain e)
  /\ 0.1 <= Rabs (position (processGrain_n eng (S k) (newGrain e))
                  - position (processGrain_n eng k (newGrain e))).
Proof.
  split; [apply spawn_finalRate_floor|]. split.
  { cbn [newGrain playbackRate]. unfold spawn_finalRate.
    pose proof (Rmax_l 0.1 (Rabs (spawn_rate e + spawn_fmMod e))) as H.
    destruct (spawn_reversed e).
    - rewrite Rabs_Ropp, Rabs_pos_eq; lra.
    - rewrite Rabs_pos_eq; lra. }
  split.
  { unfold spawn_fmMod. destruct (Rlt_dec 0 (spawn_fmAmount e));
      [now right | now left]. }
  split; [apply processGrain_n_playbackRate|].
  assert (Hstep : forall j g,
            position (processGrain_n eng (S j) g)
            - position (processGrain_n eng j g) = playbackRate g).
  { clear. induction j as [|j IH]; intro g.
    - cbn [processGrain_n]. rewrite processGrain_position. ring.
    - rewrite (processGrain_n_S eng (S j) g), (processGrain_n_S eng j g).
      rewrite IH. apply processGrain_playbackRate. }
  rewrite Hstep. apply spawn_finalRate_floor.
Qed.

(** *** Pan *)

Lemma spawn_finalPan_range (e : GrainEngine) : -1 <= spawn_finalPan e <= 1.
Proof.
  unfold spawn_finalPan. split; [apply Rmax_l|].
  apply Rmax_lub; [lra | apply Rmin_l].
Qed.

(** C7.  The pan of a spawned grain lies in [[-1, 1]], the stored gains
    are [panL = cos((pan + 1) * PI / 4)] and [panR = sin((pan + 1) * PI / 4)],
    their squares sum to 1 (so also within 1e-6 of 1), and both gains lie in
    [[0, 1]]. *)
Theorem pan_gains_equal_power (e : GrainEngine) :
  let g := newGrain e in
  -1 <= pan g <= 1
  /\ panL g = cos ((pan g + 1) * PI / 4)
  /\ panR g = sin ((pan g + 1) * PI / 4)
  /\ panL g * panL g + panR g * panR g = 1
  /\ Rabs (panL g * panL g + panR g * panR g - 1) <= 0.000001
  /\ 0 <= panL g <= 1
  /\ 0 <= panR g <= 1.
Proof.
  intro g. pose proof (spawn_finalPan_range e) as Hp.
  assert (Hangle : spawn_panAngle e = (spawn_finalPan e + 1) * PI / 4).
  { unfold spawn_panAngle. lra. }
  pose proof PI_RGT_0 as Hpi.
  assert (Hrange : 0 <= spawn_panAngle e <= PI / 2).
  { rewrite Hangle. split; nra. }
  assert (Hsq : cos (spawn_panAngle e) * cos (spawn_panAngle e)
                + sin (spawn_panAngle e) * sin (spawn_panAngle e) = 1).
  { pose proof (sin2_cos2 (spawn_panAngle e)) as H. unfold Rsqr in H. lra. }
  cbn [g newGrain pan panL panR]. rewrite <- Hangle.
  split; [exact Hp|]. split; [reflexivity|]. split; [reflexivity|].
  split; [exact Hsq|]. split.
  { rewrite Hsq. replace (1 - 1) with 0 by ring. rewrite Rabs_R0. lra. }
  split.
  - split; [apply cos_ge_0; lra|].
    destruct (COS_bound (spawn_panAngle e)); lra.
  - split; [apply sin_ge_0; lra|].
    destruct (SIN_bound (spawn_panAngle e)); lra.
Qed.

(** ** The grain pool *)

Lemma list_set_length {A : Type} (l : list A) (i : nat) (v : A) :
  length (list_set l i v) = length l.
Proof.
  revert i; induction l as [|h t IH]; intros [|i]; simpl; auto.
Qed.


Lemma activeCount_le_length (gs : list Grain) :
  (activeCount gs <= length gs)%nat.
Proof.
  unfold activeCount. induction gs as [|g t IH]; simpl; [lia|].
  destruct (active g); simpl; lia.
Qed.

(** The slot search on two concrete pools: the first free slot, and on a
    full pool the slot closest to its end. *)
Example chooseSlot_free : chooseSlot poolWithFreeSlot = 2%Z.
Proof. reflexivity. Qed.

Example chooseSlot_full : chooseSlot poolFull = 1%Z.
Proof. reflexivity. Qed.

Example chooseSlot_saturated :
  chooseSlot (grains_ saturatedEngine) = (-1)%Z.
Proof. reflexivity. Qed.





Lemma spawnGrain_pool_length (e : GrainEngine) :
  length (grains_ (spawnGrain e)) = length (grains_ e).
Proof.
  unfold spawnGrain. destruct (chooseSlot (grains_ e) <? 0)%Z; [reflexivity|].
  destruct (grainEventCount_ e <? MAX_GRAIN_EVENTS)%Z;
    cbn [grains_ set_grainEvents set_grains set_rngState];
    apply list_set_length.
Qed.




(** ** The scheduling loop *)

(** What a spawn leaves untouched. *)
Lemma spawnGrain_frame (e : GrainEngine) :
  params_ (spawnGrain e) = params_ e
  /\ currentLfoValue_ (spawnGrain e) = currentLfoValue_ e
  /\ nextGrainTime_ (spawnGrain e) = nextGrainTime_ e
  /\ currentTime_ (spawnGrain e) = currentTime_ e
  /\ sampleRate_ (spawnGrain e) = sampleRate_ e
  /\ invSampleRate_ (spawnGrain e) = invSampleRate_ e.
Proof.
  unfold spawnGrain. destruct (chooseSlot (grains_ e) <? 0)%Z;
    [repeat split|].
  destruct (grainEventCount_ e <? MAX_GRAIN_EVENTS)%Z; repeat split.
Qed.

Lemma schedule_density_frame (e e' : GrainEngine) :
  params_ e' = params_ e -> currentLfoValue_ e' = currentLfoValue_ e ->
  schedule_density e' = schedule_density e.
Proof.
  intros Hp Hl. unfold schedule_density, getModulated. now rewrite Hp, Hl.
Qed.

(** One iteration advances [nextGrainTime_] by the modulated density and
    leaves that density as it was. *)
Lemma scheduleStep_advances (e : GrainEngine) :
  nextGrainTime_ (scheduleStep e) = nextGrainTime_ e + schedule_density e
  /\ schedule_density (scheduleStep e) = schedule_density e.
Proof.
  destruct (spawnGrain_frame e) as [Hp [Hl [Hn _]]].
  assert (Hd : schedule_density (spawnGrain e) = schedule_density e)
    by (apply schedule_density_frame; assumption).
  unfold scheduleStep. split.
  - cbn [nextGrainTime_ set_nextGrainTime]. now rewrite Hn, Hd.
  - transitivity (schedule_density (spawnGrain e)); [|exact Hd].
    apply schedule_density_frame; reflexivity.
Qed.

(** With the density target bit set, the increment is clamped to
    [[0.005, 10]]. *)
Lemma schedule_density_modulated (e : GrainEngine) :
  Z.land (EngineParams.lfoTargetMask (params_ e)) LFO_DENSITY <> 0%Z ->
  0.005 <= schedule_density e <= 10.
Proof.
  intro H. unfold schedule_density, getModulated.
  apply Z.eqb_neq in H. rewrite H. split; [apply Rmax_l|].
  apply Rmax_lub; [lra | apply Rmin_l].
Qed.

(** With the bit clear, the increment is the density parameter itself. *)
Lemma schedule_density_unmodulated (e : GrainEngine) :
  Z.land (EngineParams.lfoTargetMask (params_ e)) LFO_DENSITY = 0%Z ->
  schedule_density e = EngineParams.density (params_ e).
Proof.
  intro H. unfold schedule_density, getModulated.
  apply Z.eqb_eq in H. now rewrite H.
Qed.


(** An increment that is not positive never ends it. *)
Lemma scheduleGrains_stuck (fuel : nat) (blockEndTime : R) (e : GrainEngine) :
  schedule_density e <= 0 -> nextGrainTime_ e < blockEndTime ->
  scheduleGrains fuel blockEndTime e = None.
Proof.
  revert e. induction fuel as [|fuel IH]; intros e Hd Hlt;
    cbn [scheduleGrains];
    (destruct (Rlt_dec (nextGrainTime_ e) blockEndTime); [|lra]);
    [reflexivity|].
  destruct (scheduleStep_advances e) as [Hnext Hdens].
  apply IH; [now rewrite Hdens | rewrite Hnext; lra].
Qed.


(** *** Block preparation *)

Lemma advanceSmoothers_frame (n : nat) (e : GrainEngine) :
  params_ (advanceSmoothers n e) = params_ e
  /\ currentLfoValue_ (advanceSmoothers n e) = currentLfoValue_ e
  /\ nextGrainTime_ (advanceSmoothers n e) = nextGrainTime_ e
  /\ currentTime_ (advanceSmoothers n e) = currentTime_ e
  /\ invSampleRate_ (advanceSmoothers n e) = invSampleRate_ e
  /\ isDrifting_ (advanceSmoothers n e) = isDrifting_ e
  /\ isFrozen_ (advanceSmoothers n e) = isFrozen_ e
  /\ sampleRate_ (advanceSmoothers n e) = sampleRate_ e
  /\ grains_ (advanceSmoothers n e) = grains_ e
  /\ sampleBuffer_ (advanceSmoothers n e) = sampleBuffer_ e
  /\ sampleBufferLength_ (advanceSmoothers n e) = sampleBufferLength_ e.
Proof.
  revert e. induction n as [|n IH]; intro e; [repeat split|].
  cbn [advanceSmoothers].
  destruct (IH (set_smoothers e
           (ParamSmoother.process (pitchSmoother_ e))
           (ParamSmoother.process (positionSmoother_ e))
           (ParamSmoother.process (grainSizeSmoother_ e))
           (ParamSmoother.process (panSmoother_ e))
           (ParamSmoother.process (volumeSmoother_ e))))
    as [H1 [H2 [H3 [H4 [H5 [H6 [H7 [H8 [H9 [H10 H11]]]]]]]]]].
  rewrite H1, H2, H3, H4, H5, H6, H7, H8, H9, H10, H11. repeat split.
Qed.

Lemma beginBlock_frame (e : GrainEngine) (numFrames : Z) :
  params_ (beginBlock e numFrames) = params_ e
  /\ nextGrainTime_ (beginBlock e numFrames) = nextGrainTime_ e
  /\ currentTime_ (beginBlock e numFrames) = currentTime_ e
  /\ invSampleRate_ (beginBlock e numFrames) = invSampleRate_ e
  /\ sampleRate_ (beginBlock e numFrames) = sampleRate_ e
  /\ grains_ (beginBlock e numFrames) = grains_ e
  /\ sampleBuffer_ (beginBlock e numFrames) = sampleBuffer_ e
  /\ sampleBufferLength_ (beginBlock e numFrames) = sampleBufferLength_ e.
Proof.
  unfold beginBlock.
  set (e1 := set_currentLfoValue e (LFO.getValue (lfo_ e) (currentTime_ e))).
  destruct (advanceSmoothers_frame (Z.to_nat numFrames) e1)
    as [H1 [_ [H3 [H4 [H5 [_ [_ [H8 [H9 [H10 H11]]]]]]]]]].
  destruct (isDrifting_ (advanceSmoothers (Z.to_nat numFrames) e1)
            && negb (isFrozen_ (advanceSmoothers (Z.to_nat numFrames) e1))).
  - unfold updateDrift.
    destruct (randomFloat (rngState_ (advanceSmoothers (Z.to_nat numFrames) e1)))
      as [u s].
    cbn [params_ nextGrainTime_ currentTime_ invSampleRate_ sampleRate_
         grains_ sampleBuffer_ sampleBufferLength_ set_drift set_rngState].
    rewrite H1, H3, H4, H5, H8, H9, H10, H11. repeat split.
  - rewrite H1, H3, H4, H5, H8, H9, H10, H11. repeat split.
Qed.

(** C1 (the code at a zero density with no LFO target).  In
    [zeroDensityEngine] the density bit of the target mask is clear and the
    density parameter is 0: the modulated density is 0, below the 5 ms
    floor; an iteration of the scheduling loop leaves [nextGrainTime_]
    where it was; and [process] of a 128-frame block does not return,
    whatever the fuel. *)
Theorem zero_density_never_returns :
  Z.land (EngineParams.lfoTargetMask (params_ zeroDensityEngine)) LFO_DENSITY
  = 0%Z
  /\ schedule_density zeroDensityEngine = 0
  /\ nextGrainTime_ (scheduleStep zeroDensityEngine)
     = nextGrainTime_ zeroDensityEngine
  /\ forall fuel : nat, process fuel zeroDensityEngine 128 = None.
Proof.
  assert (Hmask : Z.land (EngineParams.lfoTargetMask (params_ zeroDensityEngine))
                    LFO_DENSITY = 0%Z) by reflexivity.
  assert (Hd : schedule_density zeroDensityEngine = 0).
  { rewrite schedule_density_unmodulated by exact Hmask. reflexivity. }
  split; [exact Hmask|]. split; [exact Hd|]. split.
  { destruct (scheduleStep_advances zeroDensityEngine) as [H _].
    rewrite H, Hd. ring. }
  intro fuel. unfold process.
  replace (negb (isPlaying_ zeroDensityEngine)
           || is_null (sampleBuffer_ zeroDensityEngine)
           || (sampleBufferLength_ zeroDensityEngine =? 0)%Z)
    with false by reflexivity.
  destruct (beginBlock_frame zeroDensityEngine 128) as [Hp [Hn [Hc [Hi _]]]].
  rewrite scheduleGrains_stuck; [reflexivity| |].
  - rewrite schedule_density_unmodulated by (rewrite Hp; exact Hmask).
    rewrite Hp. cbn. lra.
  - rewrite Hn, Hc, Hi. cbn. lra.
Qed.

(** ** Block processing *)

Lemma scheduleGrains_rate (fuel : nat) (blockEndTime : R) :
  forall e e', scheduleGrains fuel blockEndTime e = Some e' ->
  sampleRate_ e' = sampleRate_ e /\ invSampleRate_ e' = invSampleRate_ e.
Proof.
  induction fuel as [|fuel IH]; intros e e'; cbn [scheduleGrains];
    destruct (Rlt_dec (nextGrainTime_ e) blockEndTime);
    try discriminate; try (intro H; injection H as <-; now split).
  intro H. destruct (IH _ _ H) as [H1 H2].
  destruct (spawnGrain_frame e) as [_ [_ [_ [_ [H3 H4]]]]].
  unfold scheduleStep in H1, H2.
  cbn [sampleRate_ invSampleRate_ set_nextGrainTime] in H1, H2.
  split; congruence.
Qed.

Lemma process_rate_consistent (fuel : nat) (e e' : GrainEngine)
    (numFrames : Z) (outL outR : list R) :
  rate_consistent e -> process fuel e numFrames = Some (e', outL, outR) ->
  rate_consistent e'.
Proof.
  unfold rate_consistent, process. intros Hrc.
  destruct (negb (isPlaying_ e) || is_null (sampleBuffer_ e)
            || (sampleBufferLength_ e =? 0)%Z).
  - intro H. injection H as <- _ _. exact Hrc.
  - destruct (beginBlock_frame e numFrames)
      as [_ [_ [_ [Hi [Hs _]]]]].
    destruct (scheduleGrains fuel _ (beginBlock e numFrames)) as [e4|] eqn:E;
      [|discriminate].
    destruct (scheduleGrains_rate _ _ _ _ E) as [H1 H2].
    destruct (mixFrames e4 (Z.to_nat numFrames) (grains_ e4)) as [[gs l] r].
    intro H. injection H as <- _ _.
    cbn [invSampleRate_ sampleRate_ set_currentTime set_grains].
    congruence.
Qed.

(** Every state a run reaches from the constructor is rate-consistent. *)
Lemma run_rate_consistent (fuel : nat) (history : list Call) :
  forall e e' os, rate_consistent e ->
  run fuel e history = Some (e', os) -> rate_consistent e'.
Proof.
  induction history as [|c rest IH]; intros e e' os Hrc; cbn [run].
  - intro H. injection H as <- _. exact Hrc.
  - destruct (call fuel e c) as [[e1 o]|] eqn:Ec; [|discriminate].
    destruct (run fuel e1 rest) as [[e2 os2]|] eqn:Er; [|discriminate].
    intro H. injection H as <- _. apply (IH e1 e2 os2); [|exact Er].
    destruct c; cbn [call] in Ec.
    + injection Ec as <- _. reflexivity.
    + injection Ec as <- _. exact Hrc.
    + injection Ec as <- _. exact Hrc.
    + injection Ec as <- _. unfold start. destruct (isPlaying_ e); exact Hrc.
    + injection Ec as <- _. exact Hrc.
    + injection Ec as <- _. unfold setFrozen. destruct frozen; exact Hrc.
    + injection Ec as <- _. unfold setDrift. destruct enabled; exact Hrc.
    + destruct (process fuel e numFrames) as [[[e3 l] r]|] eqn:Ep;
        [|discriminate].
      injection Ec as <- _. eapply process_rate_consistent; eassumption.
    + injection Ec as <- _. exact Hrc.
Qed.




(** *** A playing engine with a negative sample rate *)









(** ** Runs *)

(** The first draws of the PRNG from the constructor's seed. *)
Example randomUint_from_seed :
  randomUint 12345 = 3336926330%Z
  /\ randomUint (randomUint 12345) = 1697253807%Z.
Proof. split; vm_compute; reflexivity. Qed.

Lemma randomUint_range (s : Z) :
  (0 <= s < 2 ^ 32)%Z -> (0 <= randomUint s < 2 ^ 32)%Z.
Proof.
  intros Hs. unfold randomUint.
  assert (Hx : forall a b, (0 <= a < 2 ^ 32)%Z -> (0 <= b < 2 ^ 32)%Z ->
               (0 <= Z.lxor a b < 2 ^ 32)%Z).
  { intros a b Ha Hb. split; [apply Z.lxor_nonneg; lia|].
    destruct (Z.eq_dec (Z.lxor a b) 0) as [->|Hne]; [lia|].
    apply Z.log2_lt_pow2; [assert (0 <= Z.lxor a b)%Z
                             by (apply Z.lxor_nonneg; lia); lia|].
    eapply Z.le_lt_trans; [apply Z.log2_lxor; lia|].
    apply Z.max_lub_lt.
    - destruct (Z.eq_dec a 0) as [->|]; [simpl; lia|].
      apply Z.log2_lt_pow2; lia.
    - destruct (Z.eq_dec b 0) as [->|]; [simpl; lia|].
      apply Z.log2_lt_pow2; lia. }
  assert (Hm : forall a n, (0 <= Z.shiftl a n mod 2 ^ 32 < 2 ^ 32)%Z)
    by (intros; apply Z.mod_pos_bound; lia).
  assert (Hr : forall a, (0 <= a < 2 ^ 32)%Z ->
               (0 <= Z.shiftr a 17 < 2 ^ 32)%Z).
  { intros a Ha. rewrite Z.shiftr_div_pow2 by lia. split.
    - apply Z.div_pos; lia.
    - apply Z.div_lt_upper_bound; lia. }
  apply Hx; [apply Hx; [apply Hx; [exact Hs | apply Hm] | apply Hr, Hx;
    [exact Hs | apply Hm]] | apply Hm].
Qed.






(** *** The PRNG state only moves by xorshift32 steps *)










(** ** The pool keeps its 128 slots along every run *)

Lemma mixGrains_length (e : GrainEngine) (gs : list Grain) :
  forall sumL sumR,
  length (fst (fst (mixGrains e gs sumL sumR))) = length gs.
Proof.
  induction gs as [|g t IH]; intros sumL sumR; [reflexivity|].
  cbn [mixGrains]. destruct (negb (active g)).
  - specialize (IH sumL sumR).
    destruct (mixGrains e t sumL sumR) as [[t' l] r]. simpl in *. lia.
  - destruct (processGrain e g) as [[g' gL] gR].
    specialize (IH (sumL + gL) (sumR + gR)).
    destruct (mixGrains e t (sumL + gL) (sumR + gR)) as [[t' l] r].
    simpl in *. lia.
Qed.

Lemma mixFrames_length (e : GrainEngine) (n : nat) :
  forall gs, length (fst (fst (mixFrames e n gs))) = length gs.
Proof.
  induction n as [|n IH]; intro gs; [reflexivity|].
  cbn [mixFrames]. pose proof (mixGrains_length e gs 0 0) as H1.
  destruct (mixGrains e gs 0 0) as [[gs1 l] r]. cbn [fst] in H1.
  specialize (IH gs1). destruct (mixFrames e n gs1) as [[gs2 ls] rs].
  cbn [fst] in *. lia.
Qed.

Lemma scheduleGrains_pool_length (fuel : nat) (blockEndTime : R) :
  forall e e', scheduleGrains fuel blockEndTime e = Some e' ->
  length (grains_ e') = length (grains_ e).
Proof.
  induction fuel as [|fuel IH]; intros e e'; cbn [scheduleGrains];
    destruct (Rlt_dec (nextGrainTime_ e) blockEndTime);
    try discriminate; try (intro H; injection H as <-; reflexivity).
  intro H. rewrite (IH _ _ H). unfold scheduleStep.
  cbn [grains_ set_nextGrainTime]. apply spawnGrain_pool_length.
Qed.

Lemma process_pool_length (fuel : nat) (e e' : GrainEngine) (numFrames : Z)
    (outL outR : list R) :
  process fuel e numFrames = Some (e', outL, outR) ->
  length (grains_ e') = length (grains_ e).
Proof.
  unfold process.
  destruct (negb (isPlaying_ e) || is_null (sampleBuffer_ e)
            || (sampleBufferLength_ e =? 0)%Z).
  - intro H. injection H as <- _ _. reflexivity.
  - destruct (beginBlock_frame e numFrames)
      as [_ [_ [_ [_ [_ [Hg _]]]]]].
    destruct (scheduleGrains fuel _ (beginBlock e numFrames)) as [e4|] eqn:E;
      [|discriminate].
    pose proof (scheduleGrains_pool_length _ _ _ _ E) as H4.
    pose proof (mixFrames_length e4 (Z.to_nat numFrames) (grains_ e4)) as Hm.
    destruct (mixFrames e4 (Z.to_nat numFrames) (grains_ e4)) as [[gs l] r].
    intro H. injection H as <- _ _.
    cbn [grains_ set_currentTime set_grains fst] in *. congruence.
Qed.

Lemma run_pool_length (fuel : nat) (history : list Call) :
  forall e e' os, run fuel e history = Some (e', os) ->
  length (grains_ e') = length (grains_ e).
Proof.
  induction history as [|c rest IH]; intros e e' os; cbn [run].
  - intro H. injection H as <- _. reflexivity.
  - destruct (call fuel e c) as [[e1 o]|] eqn:Ec; [|discriminate].
    destruct (run fuel e1 rest) as [[e2 os2]|] eqn:Er; [|discriminate].
    intro H. injection H as <- _. rewrite (IH _ _ _ Er).
    destruct c; cbn [call] in Ec.
    + injection Ec as <- _. cbn. apply length_map.
    + injection Ec as <- _. reflexivity.
    + injection Ec as <- _. reflexivity.
    + injection Ec as <- _. unfold start. destruct (isPlaying_ e); reflexivity.
    + injection Ec as <- _. cbn. apply length_map.
    + injection Ec as <- _. unfold setFrozen. destruct frozen; reflexivity.
    + injection Ec as <- _. unfold setDrift. destruct enabled; reflexivity.
    + destruct (process fuel e numFrames) as [[[e3 l] r]|] eqn:Ep;
        [|discriminate].
      injection Ec as <- _. eapply process_pool_length; eassumption.
    + injection Ec as <- _. reflexivity.
Qed.

(** Along every run from the constructor the pool has 128 slots, hence at
    most 128 active grains. *)
Lemma run_active_bound (fuel : nat) (history : list Call)
    (e' : GrainEngine) (os : list Observation) :
  run fuel GrainEngine_new history = Some (e', os) ->
  length (grains_ e') = Z.to_nat MAX_GRAINS
  /\ (activeCount (grains_ e') <= 128)%nat.
Proof.
  intro H. pose proof (run_pool_length _ _ _ _ _ H) as Hl.
  change (length (grains_ GrainEngine_new)) with 128%nat in Hl.
  split; [exact Hl|].
  pose proof (activeCount_le_length (grains_ e')). lia.
Qed.

(** * Further properties of the engine and of the worklet's conversion *)

(** ** Modulation mux: range and neutral cases *)

(** With the target bit set the result lies within the clamp pair,
    whatever the base value, LFO value and depth. *)
Theorem getModulated_within_clamp (e : GrainEngine) (base : R) (targetBit : Z)
    (scale minVal maxVal : R) :
  minVal <= maxVal ->
  Z.land (EngineParams.lfoTargetMask (params_ e)) targetBit <> 0%Z ->
  minVal <= getModulated e base targetBit scale minVal maxVal <= maxVal.
Proof.
  intros Hle Hbit. unfold getModulated.
  apply Z.eqb_neq in Hbit. rewrite Hbit. split; [apply Rmax_l|].
  apply Rmax_lub; [exact Hle | apply Rmin_l].
Qed.

Lemma getModulated_within_clamp_witness :
  0.01 <= getModulated
            (set_params GrainEngine_new
               (EngineParams.mk 0.3 0.15 0 0 0 0 0 0 0 0 0 0.5 0.5 0 1 1 0 1 0.8))
            7 LFO_GRAIN_SIZE ModScales.grainSize 0.01 0.5 <= 0.5.
Proof.
  apply getModulated_within_clamp; [lra|].
  vm_compute. discriminate.
Defined.

(** With a zero LFO depth a base value inside the clamp pair passes
    through unchanged, whether or not its target bit is set. *)
Theorem getModulated_zero_depth (e : GrainEngine) (base : R) (targetBit : Z)
    (scale minVal maxVal : R) :
  EngineParams.lfoAmount (params_ e) = 0 ->
  minVal <= base <= maxVal ->
  getModulated e base targetBit scale minVal maxVal = base.
Proof.
  intros Hz [Hlo Hhi]. unfold getModulated.
  destruct (Z.land _ targetBit =? 0)%Z; [reflexivity|].
  rewrite Hz.
  replace (base + currentLfoValue_ e * 0 * scale) with base by ring.
  rewrite Rmin_right by exact Hhi. apply Rmax_right. exact Hlo.
Qed.

Lemma getModulated_zero_depth_witness :
  getModulated GrainEngine_new 0.3 LFO_GRAIN_SIZE ModScales.grainSize 0.01 0.5
  = 0.3.
Proof.
  apply getModulated_zero_depth; [reflexivity | lra].
Defined.

(** ** LFO *)

(** The phase [getValue] works with is the fractional part of
    [timeSec * rate_], also for negative products. *)
Lemma lfo_phase_is_frac_part (x : R) :
  (if Rlt_dec (fmod1 x) 0 then fmod1 x + 1 else fmod1 x) = frac_part x.
Proof.
  unfold fmod1, static_cast_int.
  destruct (Rle_dec 0 x) as [Hx|Hx].
  - destruct (base_Int_part x) as [H1 H2].
    destruct (Rlt_dec (x - IZR (Int_part x)) 0); [lra|].
    reflexivity.
  - destruct (base_Int_part (- x)) as [H1 H2].
    rewrite opp_IZR.
    destruct (Rlt_dec (x - - IZR (Int_part (- x))) 0) as [Hn|Hn].
    + apply (Int_part_frac_part_spec x (- Int_part (- x) - 1)%Z); [lra|].
      rewrite minus_IZR, opp_IZR. ring.
    + apply (Int_part_frac_part_spec x (- Int_part (- x))%Z); [lra|].
      rewrite opp_IZR. ring.
Qed.

Lemma frac_part_shift (x : R) (k : Z) : frac_part (x + IZR k) = frac_part x.
Proof.
  symmetry.
  apply (Int_part_frac_part_spec (x + IZR k) (Int_part x + k)%Z).
  - destruct (base_fp x). lra.
  - rewrite plus_IZR. unfold frac_part. ring.
Qed.

(** The LFO output is within [[-1, 1]] for every shape value, rate and
    time. *)
Theorem lfo_value_in_range (l : LFO.t) (timeSec : R) :
  -1 <= LFO.getValue l timeSec <= 1.
Proof.
  unfold LFO.getValue. cbv zeta. rewrite lfo_phase_is_frac_part.
  destruct (base_fp (timeSec * LFO.rate_ l)) as [H0 H1].
  set (phase := frac_part (timeSec * LFO.rate_ l)) in *.
  assert (Hs : -1 <= sin (phase * 2 * PI) <= 1)
    by (destruct (SIN_bound (phase * 2 * PI)); lra).
  assert (Ht : -1 <= Rabs (phase * 4 - 2) - 1 <= 1)
    by (unfold Rabs; destruct (Rcase_abs (phase * 4 - 2)); lra).
  assert (Hq : -1 <= (if Rlt_dec phase 0.5 then 1 else -1) <= 1)
    by (destruct (Rlt_dec phase 0.5); lra).
  destruct (LFO.shape_ l) as [|p|p]; [exact Hs| |lra].
  destruct p as [p|p|]; [| |exact Ht];
    (destruct p as [p|p|]; [lra | lra |]); [lra | exact Hq].
Qed.

(** The LFO is periodic in time with period [1 / rate_]. *)
Theorem lfo_periodic (l : LFO.t) (timeSec : R) (k : Z) :
  LFO.rate_ l <> 0 ->
  LFO.getValue l (timeSec + IZR k / LFO.rate_ l) = LFO.getValue l timeSec.
Proof.
  intro Hr. unfold LFO.getValue. cbv zeta. rewrite !lfo_phase_is_frac_part.
  replace ((timeSec + IZR k / LFO.rate_ l) * LFO.rate_ l)
    with (timeSec * LFO.rate_ l + IZR k) by (field; exact Hr).
  rewrite frac_part_shift. reflexivity.
Qed.

Lemma lfo_periodic_witness :
  LFO.getValue (LFO.mk 2 3) (0.3 + IZR 5 / 2) = LFO.getValue (LFO.mk 2 3) 0.3.
Proof.
  apply (lfo_periodic (LFO.mk 2 3) 0.3 5). simpl. lra.
Defined.

(** ** Drift and freeze *)

(** One drift update leaves the position in [[0, 1]], draws one random
    number and keeps the drift settings. *)
Theorem updateDrift_bounded (e : GrainEngine) (deltaTimeSec : R) :
  0 <= driftPosition_ (updateDrift e deltaTimeSec) <= 1
  /\ rngState_ (updateDrift e deltaTimeSec) = randomUint (rngState_ e)
  /\ driftBasePosition_ (updateDrift e deltaTimeSec) = driftBasePosition_ e
  /\ driftSpeed_ (updateDrift e deltaTimeSec) = driftSpeed_ e
  /\ driftReturnTendency_ (updateDrift e deltaTimeSec)
     = driftReturnTendency_ e
  /\ grains_ (updateDrift e deltaTimeSec) = grains_ e.
Proof.
  unfold updateDrift, randomFloat.
  cbn [driftPosition_ rngState_ driftBasePosition_ driftSpeed_
       driftReturnTendency_ grains_ set_drift set_rngState].
  repeat split; try reflexivity.
  - apply Rmax_l.
  - apply Rmax_lub; [lra | apply Rmin_l].
Qed.



(** While frozen, or while drift is off, the block preparation leaves the
    drift position and the PRNG alone. *)
Theorem drift_suppressed (e : GrainEngine) (numFrames : Z) :
  isFrozen_ e = true \/ isDrifting_ e = false ->
  driftPosition_ (beginBlock e numFrames) = driftPosition_ e
  /\ rngState_ (beginBlock e numFrames) = rngState_ e.
Proof.
  intro H. unfold beginBlock.
  set (e1 := set_currentLfoValue e (LFO.getValue (lfo_ e) (currentTime_ e))).
  assert (F : forall n x,
            isDrifting_ (advanceSmoothers n x) = isDrifting_ x
            /\ isFrozen_ (advanceSmoothers n x) = isFrozen_ x
            /\ driftPosition_ (advanceSmoothers n x) = driftPosition_ x
            /\ rngState_ (advanceSmoothers n x) = rngState_ x).
  { induction n as [|n IH]; intro x; [repeat split|].
    cbn [advanceSmoothers].
    destruct (IH (set_smoothers x
             (ParamSmoother.process (pitchSmoother_ x))
             (ParamSmoother.process (positionSmoother_ x))
             (ParamSmoother.process (grainSizeSmoother_ x))
             (ParamSmoother.process (panSmoother_ x))
             (ParamSmoother.process (volumeSmoother_ x))))
      as [H1 [H2 [H3 H4]]].
    rewrite H1, H2, H3, H4. repeat split. }
  destruct (F (Z.to_nat numFrames) e1) as [H1 [H2 [H3 H4]]].
  change (isDrifting_ e1) with (isDrifting_ e) in H1.
  change (isFrozen_ e1) with (isFrozen_ e) in H2.
  change (driftPosition_ e1) with (driftPosition_ e) in H3.
  change (rngState_ e1) with (rngState_ e) in H4.
  rewrite H1, H2.
  assert (G : isDrifting_ e && negb (isFrozen_ e) = false).
  { destruct H as [H|H]; rewrite H; [apply andb_false_r | reflexivity]. }
  rewrite G. split; assumption.
Qed.

Lemma drift_suppressed_witness :
  driftPosition_ (beginBlock (setFrozen GrainEngine_new true 0.25) 128)
  = driftPosition_ (setFrozen GrainEngine_new true 0.25).
Proof.
  apply (drift_suppressed (setFrozen GrainEngine_new true 0.25) 128).
  left. reflexivity.
Defined.

(** Position priority of a spawn: a frozen engine uses the frozen
    position whatever the drift and the manual position are, and
    unfreezing an engine restores the position source it had. *)
Lemma freeze_overrides_and_restores (e : GrainEngine) (p q : R) :
  spawn_basePosition (setFrozen e true p) = p
  /\ spawn_basePosition
       (setDrift (setFrozen e true p) true q (driftSpeed_ e)
          (driftReturnTendency_ e)) = p
  /\ spawn_basePosition (setFrozen (setFrozen e true p) false q)
     = (if isDrifting_ e then driftPosition_ e
        else ParamSmoother.getCurrent (positionSmoother_ e))
  /\ frozenPosition_ (setFrozen (setFrozen e true p) false q) = p.
Proof. repeat split. Qed.

(** ** Scheduling: where the loop leaves [nextGrainTime_] *)





(** ** Engine time *)



(** ** Transport *)

Lemma deactivate_all_inactive (gs : list Grain) :
  activeCount (map deactivate gs) = O
  /\ forall g, In g (map deactivate gs) -> active g = false.
Proof.
  split.
  - unfold activeCount. induction gs as [|g t IH]; [reflexivity|exact IH].
  - intros g Hg. apply in_map_iff in Hg. destruct Hg as [x [<- _]].
    reflexivity.
Qed.

(** [stop()] and [init()] leave no grain active, and a block processed
    after [stop()] is silent and leaves the pool and the next spawn time as
    they are. *)
Theorem stop_silences (fuel : nat) (e : GrainEngine) (sr : R) (n : Z) :
  activeCount (grains_ (stop e)) = O
  /\ activeCount (grains_ (init e sr)) = O
  /\ isPlaying_ (stop e) = false
  /\ exists e' : GrainEngine,
       process fuel (stop e) n = Some (e', silence n, silence n)
       /\ grains_ e' = grains_ (stop e)
       /\ nextGrainTime_ e' = nextGrainTime_ e
       /\ rngState_ e' = rngState_ e.
Proof.
  split; [apply deactivate_all_inactive|].
  split; [apply deactivate_all_inactive|].
  split; [reflexivity|].
  eexists. split; [reflexivity|]. repeat split.
Qed.

(** [start()] on a stopped engine schedules the first grain at the current
    engine time, so a restart after idle blocks does not spawn a backlog;
    [start()] on a playing engine changes nothing. *)
Theorem start_schedules_now (e : GrainEngine) :
  nextGrainTime_ (start (stop e)) = currentTime_ e
  /\ isPlaying_ (start e) = true
  /\ start (start e) = start e
  /\ (start e = e \/ isPlaying_ e = false).
Proof.
  split; [reflexivity|]. split.
  { unfold start. destruct (isPlaying_ e) eqn:E; [exact E | reflexivity]. }
  split.
  { unfold start. destruct (isPlaying_ e) eqn:E.
    - now rewrite E.
    - reflexivity. }
  unfold start. destruct (isPlaying_ e); [now left | now right].
Qed.

(** ** Visualization events *)

Lemma firstn_as_map {A : Type} (d : A) (l : list A) :
  forall n, (n <= length l)%nat ->
  firstn n l = map (fun i => nth i l d) (seq 0 n).
Proof.
  induction l as [|h t IH]; intros [|n] Hn; simpl in *; try lia;
    try reflexivity.
  rewrite (IH n) by lia. rewrite <- seq_shift, map_map. reflexivity.
Qed.

Lemma firstn_list_set_snoc {A : Type} (l : list A) (v : A) :
  forall n, (n < length l)%nat ->
  firstn (S n) (list_set l n v) = firstn n l ++ [v].
Proof.
  induction l as [|h t IH]; intros [|n] Hn; simpl in *; try lia.
  - reflexivity.
  - rewrite <- (IH n) by lia. reflexivity.
Qed.

Lemma firstn_list_set_beyond {A : Type} (l : list A) (v : A) :
  forall n k, (n <= k)%nat -> firstn n (list_set l k v) = firstn n l.
Proof.
  induction l as [|h t IH]; intros [|n] [|k] Hn; simpl in *; try lia;
    try reflexivity.
  rewrite (IH n k) by lia. reflexivity.
Qed.

Lemma spawnGrain_events (e : GrainEngine) :
  events_wf e ->
  events_wf (spawnGrain e)
  /\ pendingEvents (spawnGrain e)
     = (if (chooseSlot (grains_ e) <? 0)%Z then pendingEvents e
        else if (grainEventCount_ e <? MAX_GRAIN_EVENTS)%Z
             then pendingEvents e ++ [eventOf (newGrain e)]
             else pendingEvents e).
Proof.
  intros [Hlen [Hc0 Hc1]]. unfold spawnGrain, pendingEvents, events_wf.
  destruct (chooseSlot (grains_ e) <? 0)%Z; [repeat split; assumption|].
  destruct (grainEventCount_ e <? MAX_GRAIN_EVENTS)%Z eqn:E;
    cbn [grainEvents_ grainEventCount_ set_grainEvents set_grains set_rngState].
  - apply Z.ltb_lt in E. unfold MAX_GRAIN_EVENTS in *.
    rewrite list_set_length.
    split; [split; [exact Hlen | lia]|].
    replace (Z.to_nat (grainEventCount_ e + 1))
      with (S (Z.to_nat (grainEventCount_ e))) by lia.
    apply firstn_list_set_snoc. rewrite Hlen. lia.
  - repeat split; assumption.
Qed.

(** A spawn that takes place appends the event of the grain it wrote to
    the pending events while fewer than 64 are pending, and drops it once
    64 are pending; a spawn that is skipped emits nothing. *)
Theorem spawn_emits_event (e : GrainEngine) :
  events_wf e ->
  events_wf (spawnGrain e)
  /\ pendingEvents (spawnGrain e)
     = (if (chooseSlot (grains_ e) <? 0)%Z then pendingEvents e
        else if (grainEventCount_ e <? MAX_GRAIN_EVENTS)%Z
             then pendingEvents e ++ [eventOf (newGrain e)]
             else pendingEvents e).
Proof. apply spawnGrain_events. Qed.

Lemma spawn_emits_event_witness :
  pendingEvents (spawnGrain GrainEngine_new)
  = [eventOf (newGrain GrainEngine_new)].
Proof.
  assert (Hwf : events_wf GrainEngine_new).
  { split; [reflexivity | unfold MAX_GRAIN_EVENTS; simpl; lia]. }
  exact (proj2 (spawn_emits_event GrainEngine_new Hwf)).
Defined.

Lemma drainGrainEvents_pending (e : GrainEngine) :
  events_wf e ->
  snd (drainGrainEvents e) = pendingEvents e
  /\ length (snd (drainGrainEvents e)) = Z.to_nat (getGrainEventCount e)
  /\ events_wf (fst (drainGrainEvents e))
  /\ pendingEvents (fst (drainGrainEvents e)) = []
  /\ snd (drainGrainEvents (fst (drainGrainEvents e))) = [].
Proof.
  intros [Hlen [Hc0 Hc1]].
  assert (Hd : snd (drainGrainEvents e) = pendingEvents e).
  { unfold drainGrainEvents, pendingEvents, getGrainEventCount. cbn [snd].
    rewrite (firstn_as_map GrainEvent.zero)
      by (rewrite Hlen; unfold MAX_GRAIN_EVENTS in *; lia).
    apply map_ext_in. intros i Hi. apply in_seq in Hi.
    unfold getGrainEventNormPos, getGrainEventDuration, getGrainEventPan,
      getGrainEvent.
    assert (G : (Z.of_nat i <? 0)%Z || (Z.of_nat i >=? grainEventCount_ e)%Z
                = false).
    { apply orb_false_intro; [apply Z.ltb_ge; lia|].
      rewrite Z.geb_leb. apply Z.leb_gt. lia. }
    rewrite G, Nat2Z.id.
    destruct (nth i (grainEvents_ e) GrainEvent.zero). reflexivity. }
  split; [exact Hd|]. split.
  { rewrite Hd. unfold pendingEvents, getGrainEventCount.
    apply firstn_length_le. rewrite Hlen. unfold MAX_GRAIN_EVENTS in *. lia. }
  split.
  { split; [exact Hlen|]. cbn. unfold MAX_GRAIN_EVENTS. lia. }
  split; reflexivity.
Qed.

(** A drain returns exactly the pending events, in the order they were
    emitted, and leaves none pending: a second drain returns the empty
    list. *)
Theorem drain_returns_pending (e : GrainEngine) :
  events_wf e ->
  snd (drainGrainEvents e) = pendingEvents e
  /\ length (snd (drainGrainEvents e)) = Z.to_nat (getGrainEventCount e)
  /\ events_wf (fst (drainGrainEvents e))
  /\ pendingEvents (fst (drainGrainEvents e)) = []
  /\ snd (drainGrainEvents (fst (drainGrainEvents e))) = [].
Proof. apply drainGrainEvents_pending. Qed.

Lemma drain_returns_pending_witness :
  snd (drainGrainEvents (spawnGrain GrainEngine_new))
  = pendingEvents (spawnGrain GrainEngine_new).
Proof.
  assert (Hwf : events_wf GrainEngine_new).
  { split; [reflexivity | unfold MAX_GRAIN_EVENTS; simpl; lia]. }
  exact (proj1 (drain_returns_pending _
                  (proj1 (spawnGrain_events GrainEngine_new Hwf)))).
Defined.

(** *** The event ring along a run *)






(** ** Per-sample processing *)

Lemma computeEnvelope_range (g : Grain) :
  0 <= envPhase g -> 0 <= computeEnvelope g <= 1.
Proof.
  intro Hp. unfold computeEnvelope, fadeRatio, epsilon.
  destruct (Rlt_dec (envPhase g) 0.01) as [H1|H1]; [lra|].
  destruct (Rlt_dec (envPhase g) (attackRatio g)) as [H2|H2].
  - destruct (Rlt_dec (attackRatio g - 0.01) 0.000001) as [H3|H3]; [lra|].
    assert (Hq : 0 < / (attackRatio g - 0.01))
      by (apply Rinv_0_lt_compat; lra).
    assert (Hdq : (attackRatio g - 0.01) * / (attackRatio g - 0.01) = 1)
      by (apply Rinv_r; lra).
    unfold Rdiv.
    set (t := (envPhase g - 0.01) * / (attackRatio g - 0.01)).
    assert (Ht : 0 <= t <= 1) by (unfold t; split; nra).
    destruct (exponentialEnv g); nra.
  - destruct (Rlt_dec (envPhase g) (1 - releaseRatio g)) as [H3|H3]; [lra|].
    destruct (Rlt_dec (releaseRatio g) 0.000001) as [H4|H4]; [lra|].
    assert (Hq : 0 < / releaseRatio g) by (apply Rinv_0_lt_compat; lra).
    unfold Rdiv.
    set (t := (envPhase g - (1 - releaseRatio g)) * / releaseRatio g).
    assert (Ht : 0 <= t) by (unfold t; nra).
    assert (Hm : 0 <= Rmin 1 t <= 1).
    { split; [apply Rmin_glb; lra | apply Rmin_l]. }
    destruct (exponentialEnv g); nra.
Qed.

(** The envelope is a gain between 0 and 1 for every non-negative phase,
    whatever the attack and release ratios and the shape. *)
Theorem envelope_in_unit_interval (g : Grain) :
  0 <= envPhase g -> 0 <= computeEnvelope g <= 1.
Proof. apply computeEnvelope_range. Qed.

Lemma envelope_in_unit_interval_witness :
  0 <= computeEnvelope (envGrain 0.3 0.9 true) <= 1.
Proof.
  apply envelope_in_unit_interval. simpl. lra.
Defined.

Lemma Rabs_le_bounds (a b : R) : Rabs a <= b -> - b <= a <= b.
Proof. unfold Rabs. destruct (Rcase_abs a); lra. Qed.

(** The sample index of a non-negative position. *)
Lemma static_cast_int_floor (x : R) :
  0 <= x ->
  (0 <= static_cast_int x)%Z
  /\ IZR (static_cast_int x) <= x < IZR (static_cast_int x) + 1.
Proof.
  intro Hx. unfold static_cast_int. destruct (Rle_dec 0 x); [|lra].
  destruct (base_Int_part x) as [H1 H2]. split; [|lra].
  destruct (Z_lt_le_dec (Int_part x) 0) as [Hn|Hn]; [|exact Hn].
  exfalso. assert (Int_part x <= -1)%Z as Hle by lia.
  apply IZR_le in Hle. lra.
Qed.



(** A grain whose read position is outside the buffer contributes
    exactly 0 to both channels. *)
Theorem processGrain_outside_is_silent (e : GrainEngine) (g : Grain) :
  position g < 0 \/ IZR (sampleBufferLength_ e) <= position g ->
  snd (fst (processGrain e g)) = 0 /\ snd (processGrain e g) = 0.
Proof.
  intro H. unfold processGrain. cbn [fst snd].
  assert (G1 : Rgeb (position g) 0
               && Rltb (position g) (IZR (sampleBufferLength_ e - 1)) = false).
  { unfold Rgeb, Rltb. rewrite minus_IZR.
    destruct (Rle_dec 0 (position g)); [|reflexivity].
    destruct (Rlt_dec (position g) (IZR (sampleBufferLength_ e) - 1));
      [|reflexivity].
    exfalso. destruct H; lra. }
  assert (G2 : Rgeb (position g) 0
               && Rltb (position g) (IZR (sampleBufferLength_ e)) = false).
  { unfold Rgeb, Rltb.
    destruct (Rle_dec 0 (position g)); [|reflexivity].
    destruct (Rlt_dec (position g) (IZR (sampleBufferLength_ e)));
      [|reflexivity].
    exfalso. destruct H; lra. }
  rewrite G1, G2. split; ring.
Qed.

Lemma processGrain_outside_is_silent_witness :
  snd (fst (processGrain GrainEngine_new soundingGrain)) = 0.
Proof.
  refine (proj1 (processGrain_outside_is_silent GrainEngine_new
                   soundingGrain _)).
  right. simpl. lra.
Defined.

Lemma processGrain_output_bound (e : GrainEngine) (g : Grain) (M : R) :
  bufferBounded e M -> 0 <= envPhase g ->
  Rabs (snd (fst (processGrain e g))) <= M * Rabs (panL g)
  /\ Rabs (snd (processGrain e g)) <= M * Rabs (panR g).
Proof.
  intros Hb Hp.
  assert (HM : 0 <= M).
  { eapply Rle_trans; [apply Rabs_pos | apply (Hb 0%Z)]. }
  pose proof (computeEnvelope_range g Hp) as Henv.
  unfold processGrain. cbn [fst snd].
  set (sample :=
    if Rgeb (position g) 0 && Rltb (position g) (IZR (sampleBufferLength_ e - 1))
    then bufferAt e (static_cast_int (position g))
         * (1 - (position g - IZR (static_cast_int (position g))))
         + bufferAt e (static_cast_int (position g) + 1)
           * (position g - IZR (static_cast_int (position g)))
    else if Rgeb (position g) 0 && Rltb (position g) (IZR (sampleBufferLength_ e))
         then bufferAt e (static_cast_int (position g))
         else 0).
  assert (Hs : Rabs sample <= M).
  { unfold sample.
    destruct (Rgeb (position g) 0
              && Rltb (position g) (IZR (sampleBufferLength_ e - 1))) eqn:E1.
    - apply andb_prop in E1. destruct E1 as [E1 _]. unfold Rgeb in E1.
      destruct (Rle_dec 0 (position g)) as [Hpos|]; [|discriminate].
      destruct (static_cast_int_floor _ Hpos) as [_ [Hlo Hhi]].
      set (i := static_cast_int (position g)) in *.
      set (f := position g - IZR i).
      assert (Hf : 0 <= f < 1) by (unfold f; lra).
      pose proof (Hb i) as Ha. pose proof (Hb (i + 1)%Z) as Hc.
      apply Rabs_le_bounds in Ha. apply Rabs_le_bounds in Hc.
      apply Rabs_le. split; nra.
    - destruct (Rgeb (position g) 0
                && Rltb (position g) (IZR (sampleBufferLength_ e)));
        [apply Hb | rewrite Rabs_R0; exact HM]. }
  assert (Hse : Rabs (sample * computeEnvelope g) <= M).
  { rewrite Rabs_mult. rewrite (Rabs_pos_eq (computeEnvelope g)) by lra.
    pose proof (Rabs_pos sample). nra. }
  split; rewrite Rabs_mult;
    (apply Rmult_le_compat_r; [apply Rabs_pos | exact Hse]).
Qed.



(** *** Lifecycle *)







(** A grain is inactive once [processGrain] has run on it as many times
    as it had samples remaining, and its envelope phase advances by
    [envIncrement] per sample. *)
Theorem grain_ends_after_its_samples (e : GrainEngine) (k : nat) :
  forall g : Grain,
  (0 < k)%nat -> (samplesRemaining g <= Z.of_nat k)%Z ->
  active (processGrain_n e k g) = false
  /\ envPhase (processGrain_n e k g) = envPhase g + INR k * envIncrement g.
Proof.
  assert (Hphase : forall j g,
            envPhase (processGrain_n e j g) = envPhase g + INR j * envIncrement g
            /\ samplesRemaining (processGrain_n e j g)
               = (samplesRemaining g - Z.of_nat j)%Z).
  { induction j as [|j IH]; intro g; [simpl; split; [ring | lia]|].
    rewrite processGrain_n_S.
    destruct (IH (fst (fst (processGrain e g)))) as [H1 H2].
    rewrite H1, H2, S_INR. cbn [processGrain fst envPhase envIncrement
      samplesRemaining]. split; [ring | lia]. }
  assert (Hdead : forall j g, active g = false ->
            active (processGrain_n e j g) = false).
  { induction j as [|j IH]; intros g Hg; [exact Hg|].
    rewrite processGrain_n_S. apply IH.
    cbn [processGrain fst active]. rewrite Hg.
    destruct (_ || _ || _); reflexivity. }
  induction k as [|k IH]; intros g Hk Hrem; [lia|].
  split; [|apply Hphase].
  rewrite processGrain_n_S.
  destruct (Z_le_gt_dec (samplesRemaining g - 1) 0) as [Hz|Hz].
  - apply Hdead. cbn [processGrain fst active].
    apply Z.leb_le in Hz. rewrite Hz. reflexivity.
  - destruct k as [|k]; [lia|].
    apply IH; [lia|]. cbn [processGrain fst samplesRemaining]. lia.
Qed.

Lemma grain_ends_after_its_samples_witness :
  active (processGrain_n GrainEngine_new 3 (agedGrain 3)) = false.
Proof.
  refine (proj1 (grain_ends_after_its_samples GrainEngine_new 3
                   (agedGrain 3) _ _)); simpl; lia.
Defined.

(** ** Spawn position *)

(** With a positive sample rate and a non-empty buffer, a spawned grain
    starts inside the buffer, forward or reversed, for every position,
    spread and random offset. *)
Theorem spawn_starts_inside_buffer (e : GrainEngine) :
  0 < sampleRate_ e -> (1 <= sampleBufferLength_ e)%Z ->
  0 <= position (newGrain e) < IZR (sampleBufferLength_ e).
Proof.
  intros Hsr Hlen. cbn [newGrain position]. unfold spawn_startSample.
  cbv zeta.
  assert (Hl : 1 <= IZR (sampleBufferLength_ e)) by (apply IZR_le in Hlen; lra).
  assert (Hd : 0.01 <= spawn_grainDuration e)
    by (unfold spawn_grainDuration; apply Rmax_l).
  pose proof (spawn_finalRate_floor e) as Hr.
  set (len := IZR (sampleBufferLength_ e)) in *.
  set (s0 := spawn_position e * len
             + (fst (spawn_rng3 e) * 2 - 1) * spawn_spread e * len * 0.5).
  set (maxStart := len - spawn_grainDuration e * sampleRate_ e
                         * Rabs (spawn_finalRate e)).
  assert (Hds : 0 < spawn_grainDuration e * sampleRate_ e) by nra.
  assert (Hms : maxStart < len) by (unfold maxStart; nra).
  assert (H0 : 0 <= Rmax 0 (Rmin s0 (Rmax 0 maxStart))) by apply Rmax_l.
  assert (H1 : Rmax 0 (Rmin s0 (Rmax 0 maxStart)) < len).
  { apply Rmax_lub_lt; [lra|].
    eapply Rle_lt_trans; [apply Rmin_r|]. apply Rmax_lub_lt; lra. }
  destruct (spawn_reversed e).
  - rewrite minus_IZR. fold len. split.
    + apply Rmin_glb; [nra | lra].
    + eapply Rle_lt_trans; [apply Rmin_r|]. lra.
  - split; assumption.
Qed.

Lemma spawn_starts_inside_buffer_witness :
  0 <= position (newGrain (setSampleBuffer GrainEngine_new [1; 1] 1)) < 2.
Proof.
  apply (spawn_starts_inside_buffer (setSampleBuffer GrainEngine_new [1; 1] 1)).
  - simpl. lra.
  - simpl. lia.
Defined.

(** ** PRNG *)

Lemma xorshift_left13_nonzero (s : Z) :
  (0 < s < 2 ^ 32)%Z -> Z.lxor s (Z.shiftl s 13 mod 2 ^ 32) <> 0%Z.
Proof.
  intros Hs H. apply Z.lxor_eq in H.
  rewrite Z.shiftl_mul_pow2 in H by lia.
  pose proof (Z.div_mod (s * 2 ^ 13) (2 ^ 32) ltac:(lia)) as Hdm.
  rewrite <- H in Hdm.
  set (q := (s * 2 ^ 13 / 2 ^ 32)%Z) in *.
  change (2 ^ 13)%Z with 8192%Z in *. change (2 ^ 32)%Z with 4294967296%Z in *.
  lia.
Qed.

Lemma xorshift_left5_nonzero (s : Z) :
  (0 < s < 2 ^ 32)%Z -> Z.lxor s (Z.shiftl s 5 mod 2 ^ 32) <> 0%Z.
Proof.
  intros Hs H. apply Z.lxor_eq in H.
  rewrite Z.shiftl_mul_pow2 in H by lia.
  pose proof (Z.div_mod (s * 2 ^ 5) (2 ^ 32) ltac:(lia)) as Hdm.
  rewrite <- H in Hdm.
  set (q := (s * 2 ^ 5 / 2 ^ 32)%Z) in *.
  change (2 ^ 5)%Z with 32%Z in *. change (2 ^ 32)%Z with 4294967296%Z in *.
  lia.
Qed.

Lemma xorshift_right17_nonzero (s : Z) :
  (0 < s < 2 ^ 32)%Z -> Z.lxor s (Z.shiftr s 17) <> 0%Z.
Proof.
  intros Hs H. apply Z.lxor_eq in H.
  rewrite Z.shiftr_div_pow2 in H by lia.
  pose proof (Z.div_lt s (2 ^ 17) ltac:(lia) ltac:(lia)). lia.
Qed.

Lemma lxor_range32 (a b : Z) :
  (0 <= a < 2 ^ 32)%Z -> (0 <= b < 2 ^ 32)%Z ->
  (0 <= Z.lxor a b < 2 ^ 32)%Z.
Proof.
  intros Ha Hb.
  assert (H0 : (0 <= Z.lxor a b)%Z) by (apply Z.lxor_nonneg; lia).
  split; [exact H0|].
  destruct (Z.eq_dec (Z.lxor a b) 0) as [->|Hne]; [lia|].
  apply Z.log2_lt_pow2; [lia|].
  eapply Z.le_lt_trans; [apply Z.log2_lxor; lia|].
  apply Z.max_lub_lt.
  - destruct (Z.eq_dec a 0) as [->|]; [simpl; lia|].
    apply Z.log2_lt_pow2; lia.
  - destruct (Z.eq_dec b 0) as [->|]; [simpl; lia|].
    apply Z.log2_lt_pow2; lia.
Qed.

(** xorshift32 maps non-zero 32-bit states to non-zero 32-bit states, so
    from the seed 12345 the generator never reaches the fixed point 0, and
    every [randomFloat] is positive and at most 1. *)
Theorem prng_never_zero (k : nat) :
  (0 < Nat.iter k randomUint 12345 < 2 ^ 32)%Z
  /\ 0 < fst (randomFloat (Nat.iter k randomUint 12345%Z)) <= 1.
Proof.
  assert (Hstep : forall s, (0 < s < 2 ^ 32)%Z ->
                  (0 < randomUint s < 2 ^ 32)%Z).
  { intros s Hs. unfold randomUint. cbv zeta.
    assert (Hm : forall a n, (0 <= Z.shiftl a n mod 2 ^ 32 < 2 ^ 32)%Z)
      by (intros; apply Z.mod_pos_bound; lia).
    assert (Hr : forall a, (0 <= a < 2 ^ 32)%Z ->
                 (0 <= Z.shiftr a 17 < 2 ^ 32)%Z).
    { intros a Ha. rewrite Z.shiftr_div_pow2 by lia. split.
      - apply Z.div_pos; lia.
      - apply Z.div_lt_upper_bound; lia. }
    set (s1 := Z.lxor s (Z.shiftl s 13 mod 2 ^ 32)).
    assert (H1 : (0 < s1 < 2 ^ 32)%Z).
    { pose proof (lxor_range32 s _ ltac:(lia) (Hm s 13%Z)).
      pose proof (xorshift_left13_nonzero s Hs). unfold s1. lia. }
    set (s2 := Z.lxor s1 (Z.shiftr s1 17)).
    assert (H2 : (0 < s2 < 2 ^ 32)%Z).
    { pose proof (lxor_range32 s1 _ ltac:(lia) (Hr s1 ltac:(lia))).
      pose proof (xorshift_right17_nonzero s1 H1). unfold s2. lia. }
    pose proof (lxor_range32 s2 _ ltac:(lia) (Hm s2 5%Z)).
    pose proof (xorshift_left5_nonzero s2 H2). lia. }
  assert (Horbit : forall j, (0 < Nat.iter j randomUint 12345%Z < 2 ^ 32)%Z).
  { induction j as [|j IH]; [simpl; lia|]. cbn [Nat.iter]. now apply Hstep. }
  split; [apply Horbit|].
  destruct (Hstep _ (Horbit k)) as [H0 H1].
  unfold randomFloat. cbn [fst].
  apply IZR_lt in H0. apply IZR_lt in H1.
  change (IZR (2 ^ 32)) with 4294967296 in H1.
  split.
  - apply Rdiv_lt_0_compat; lra.
  - apply Rmult_le_reg_r with 4294967296; [lra|].
    unfold Rdiv. rewrite Rmult_assoc, Rinv_l by lra. lra.
Qed.

(** ** Parameter smoother: edge behaviour *)

(** With a coefficient in [[0, 1]] the smoothed value never overshoots: after
    any number of steps it lies between the value it started from and the
    target. *)
Theorem smoother_never_overshoots (s : ParamSmoother.t) (n : nat) :
  0 <= ParamSmoother.coeff_ s <= 1 ->
  Rmin (ParamSmoother.current_ s) (ParamSmoother.target_ s)
  <= ParamSmoother.current_ (ParamSmoother.process_n n s)
  <= Rmax (ParamSmoother.current_ s) (ParamSmoother.target_ s).
Proof.
  intro Hc. pose proof (process_n_error n s) as He.
  assert (Hp : 0 <= (1 - ParamSmoother.coeff_ s) ^ n <= 1).
  { split; [apply pow_le; lra|].
    pose proof (pow_incr (1 - ParamSmoother.coeff_ s) 1 n ltac:(lra)) as Hi.
    rewrite pow1 in Hi. exact Hi. }
  set (w := (1 - ParamSmoother.coeff_ s) ^ n) in *.
  unfold Rmin, Rmax.
  destruct (Rle_dec (ParamSmoother.current_ s) (ParamSmoother.target_ s));
    split; nra.
Qed.

Lemma smoother_never_overshoots_witness :
  Rmin 0 1
  <= ParamSmoother.current_
       (ParamSmoother.process_n 5
          (ParamSmoother.setTarget (ParamSmoother.mk 48000 0.5 0 0) 1))
  <= Rmax 0 1.
Proof.
  apply (smoother_never_overshoots
           (ParamSmoother.setTarget (ParamSmoother.mk 48000 0.5 0 0) 1) 5).
  simpl. lra.
Defined.

(** A smoother set up with a non-positive sample rate or smoothing time
    does not smooth: every [process] lands exactly on the target. *)
Theorem smoother_disabled_jumps_to_target (s : ParamSmoother.t)
    (sampleRate smoothTimeMs target : R) (n : nat) :
  sampleRate <= 0 \/ smoothTimeMs <= 0 ->
  ParamSmoother.coeff_ (ParamSmoother.init s sampleRate smoothTimeMs) = 1
  /\ ParamSmoother.current_
       (ParamSmoother.process_n (S n)
          (ParamSmoother.setTarget
             (ParamSmoother.init s sampleRate smoothTimeMs) target))
     = target.
Proof.
  intro H.
  assert (Hc : ParamSmoother.coeff_ (ParamSmoother.init s sampleRate smoothTimeMs)
               = 1).
  { unfold ParamSmoother.init, ParamSmoother.setSmoothTime.
    cbn [ParamSmoother.sampleRate_].
    destruct (Rlt_dec 0 sampleRate); [|reflexivity].
    destruct (Rlt_dec 0 smoothTimeMs); [|reflexivity].
    exfalso. destruct H; lra. }
  split; [exact Hc|].
  set (s1 := ParamSmoother.setTarget
               (ParamSmoother.init s sampleRate smoothTimeMs) target).
  pose proof (process_n_error (S n) s1) as He.
  change (ParamSmoother.coeff_ s1)
    with (ParamSmoother.coeff_ (ParamSmoother.init s sampleRate smoothTimeMs))
    in He.
  rewrite Hc in He. change (ParamSmoother.target_ s1) with target in He.
  replace (1 - 1) with 0 in He by ring.
  rewrite pow_i in He by lia. lra.
Qed.

Lemma smoother_disabled_jumps_to_target_witness :
  ParamSmoother.current_
    (ParamSmoother.process_n 1
       (ParamSmoother.setTarget
          (ParamSmoother.init ParamSmoother.default 0 10) 0.7))
  = 0.7.
Proof.
  refine (proj2 (smoother_disabled_jumps_to_target ParamSmoother.default
                   0 10 0.7 0 _)).
  left. lra.
Defined.

(** *** Smoothers inside the engine *)

(** A block of [n] frames advances each of the five smoothers by exactly
    [n] steps. *)
Lemma advanceSmoothers_steps (n : nat) (e : GrainEngine) :
  pitchSmoother_ (advanceSmoothers n e)
  = ParamSmoother.process_n n (pitchSmoother_ e)
  /\ positionSmoother_ (advanceSmoothers n e)
     = ParamSmoother.process_n n (positionSmoother_ e)
  /\ grainSizeSmoother_ (advanceSmoothers n e)
     = ParamSmoother.process_n n (grainSizeSmoother_ e)
  /\ panSmoother_ (advanceSmoothers n e)
     = ParamSmoother.process_n n (panSmoother_ e)
  /\ volumeSmoother_ (advanceSmoothers n e)
     = ParamSmoother.process_n n (volumeSmoother_ e).
Proof.
  revert e. induction n as [|n IH]; intro e; [repeat split|].
  cbn [advanceSmoothers ParamSmoother.process_n].
  destruct (IH (set_smoothers e
           (ParamSmoother.process (pitchSmoother_ e))
           (ParamSmoother.process (positionSmoother_ e))
           (ParamSmoother.process (grainSizeSmoother_ e))
           (ParamSmoother.process (panSmoother_ e))
           (ParamSmoother.process (volumeSmoother_ e))))
    as [H1 [H2 [H3 [H4 H5]]]].
  rewrite H1, H2, H3, H4, H5. repeat split.
Qed.

(** [init] snaps the smoothed grain size to 0.1 s, pitch, position and pan
    to 0 and volume to 0.8, without consulting the stored parameters; they
    stay there through any number of frames until [updateParams] sets new
    targets, so a grain spawned meanwhile lasts 0.1 s unless the LFO
    targets the grain size. *)
Theorem init_resets_smoothed_values (e : GrainEngine) (sampleRate : R)
    (n : nat) :
  let e' := advanceSmoothers n (init e sampleRate) in
  ParamSmoother.getCurrent (grainSizeSmoother_ e') = 0.1
  /\ ParamSmoother.getCurrent (pitchSmoother_ e') = 0
  /\ ParamSmoother.getCurrent (positionSmoother_ e') = 0
  /\ ParamSmoother.getCurrent (panSmoother_ e') = 0
  /\ ParamSmoother.getCurrent (volumeSmoother_ e') = 0.8
  /\ params_ e' = params_ e
  /\ (duration (newGrain e') = 0.1
      \/ Z.land (EngineParams.lfoTargetMask (params_ e)) LFO_GRAIN_SIZE
         <> 0%Z).
Proof.
  intro e'.
  destruct (advanceSmoothers_steps n (init e sampleRate))
    as [H1 [H2 [H3 [H4 H5]]]].
  destruct (advanceSmoothers_frame n (init e sampleRate)) as [Hp _].
  assert (Hg : ParamSmoother.getCurrent (grainSizeSmoother_ e') = 0.1).
  { unfold e', ParamSmoother.getCurrent. rewrite H3.
    apply setImmediate_fixed. }
  split; [exact Hg|].
  split; [unfold e', ParamSmoother.getCurrent; rewrite H1;
          apply setImmediate_fixed|].
  split; [unfold e', ParamSmoother.getCurrent; rewrite H2;
          apply setImmediate_fixed|].
  split; [unfold e', ParamSmoother.getCurrent; rewrite H4;
          apply setImmediate_fixed|].
  split; [unfold e', ParamSmoother.getCurrent; rewrite H5;
          apply setImmediate_fixed|].
  split; [exact Hp|].
  destruct (Z.eq_dec (Z.land (EngineParams.lfoTargetMask (params_ e))
                        LFO_GRAIN_SIZE) 0) as [Hm|Hm]; [left | now right].
  cbn [newGrain duration].
  unfold spawn_grainDuration, spawn_grainSize, getModulated.
  fold e'. unfold e' at 1. rewrite Hp.
  change (params_ (init e sampleRate)) with (params_ e).
  apply Z.eqb_eq in Hm. rewrite Hm, Hg. apply Rmax_right. lra.
Qed.

(** ** Mixing *)

(** One output sample is the sum of the contributions of the active
    grains: if every buffer sample has magnitude at most [M] and every
    active grain has a non-negative envelope phase and pan gains of
    magnitude at most 1, each channel's sample has magnitude at most [M]
    times the number of active grains, hence at most [128 * M] for the
    engine's pool size. *)
Theorem mixGrains_sum_bounded (e : GrainEngine) (M : R) (gs : list Grain) :
  bufferBounded e M ->
  (forall g, In g gs -> active g = true ->
     0 <= envPhase g /\ Rabs (panL g) <= 1 /\ Rabs (panR g) <= 1) ->
  Rabs (snd (fst (mixGrains e gs 0 0))) <= M * INR (activeCount gs)
  /\ Rabs (snd (mixGrains e gs 0 0)) <= M * INR (activeCount gs).
Proof.
  intros Hb Hall.
  assert (HM : 0 <= M).
  { eapply Rle_trans; [apply Rabs_pos | apply (Hb 0%Z)]. }
  assert (G : forall gs sumL sumR,
            (forall g, In g gs -> active g = true ->
               0 <= envPhase g /\ Rabs (panL g) <= 1 /\ Rabs (panR g) <= 1) ->
            Rabs (snd (fst (mixGrains e gs sumL sumR)) - sumL)
            <= M * INR (activeCount gs)
            /\ Rabs (snd (mixGrains e gs sumL sumR) - sumR)
               <= M * INR (activeCount gs)).
  { clear gs Hall. induction gs as [|g t IH]; intros sumL sumR Hall.
    - cbn [mixGrains fst snd activeCount filter length INR].
      replace (sumL - sumL) with 0 by ring.
      replace (sumR - sumR) with 0 by ring. rewrite Rabs_R0. lra.
    - assert (Ht : forall x, In x t -> active x = true ->
                0 <= envPhase x /\ Rabs (panL x) <= 1 /\ Rabs (panR x) <= 1)
        by (intros x Hx; apply Hall; now right).
      cbn [mixGrains]. unfold activeCount. cbn [filter].
      destruct (active g) eqn:Ea; cbn [negb].
      + destruct (Hall g (or_introl eq_refl) Ea) as [Hp [HpL HpR]].
        destruct (processGrain_output_bound e g M Hb Hp) as [HoL HoR].
        destruct (processGrain e g) as [[g' gL] gR]. cbn [fst snd] in HoL, HoR.
        destruct (IH (sumL + gL) (sumR + gR) Ht) as [IL IR].
        destruct (mixGrains e t (sumL + gL) (sumR + gR)) as [[t' l] r].
        cbn [fst snd] in *. fold (activeCount t) in *.
        change (length (g :: filter active t)) with (S (activeCount t)).
        rewrite S_INR.
        assert (HgL : Rabs gL <= M) by (pose proof (Rabs_pos (panL g)); nra).
        assert (HgR : Rabs gR <= M) by (pose proof (Rabs_pos (panR g)); nra).
        split.
        * replace (l - sumL) with ((l - (sumL + gL)) + gL) by ring.
          eapply Rle_trans; [apply Rabs_triang|]. lra.
        * replace (r - sumR) with ((r - (sumR + gR)) + gR) by ring.
          eapply Rle_trans; [apply Rabs_triang|]. lra.
      + destruct (IH sumL sumR Ht) as [IL IR].
        destruct (mixGrains e t sumL sumR) as [[t' l] r].
        cbn [fst snd] in *. fold (activeCount t). split; assumption. }
  destruct (G gs 0 0 Hall) as [HL HR].
  rewrite Rminus_0_r in HL, HR. split; assumption.
Qed.

Lemma mixGrains_sum_bounded_witness :
  Rabs (snd (fst (mixGrains negativeRateEngine
                    (soundingGrain :: repeat zeroGrain 127) 0 0)))
  <= 1 * INR (activeCount (soundingGrain :: repeat zeroGrain 127)).
Proof.
  refine (proj1 (mixGrains_sum_bounded negativeRateEngine 1
                   (soundingGrain :: repeat zeroGrain 127) _ _)).
  - intro i. unfold bufferAt.
    cbn [sampleBuffer_ negativeRateEngine set_grains set_isPlaying
         set_sampleBuffer set_rate GrainEngine_new].
    destruct (Z.to_nat i) as [|[|[|n]]]; cbn [nth];
      rewrite ?Rabs_R1, ?Rabs_R0; lra.
  - intros g [<-|Hg] Ha.
    + cbn [soundingGrain envPhase panL panR].
      rewrite Rabs_R1, Rabs_R0. lra.
    + apply repeat_spec in Hg. subst g. discriminate.
Defined.

(** ** The worklet's target mask *)

Section WorkletMask.

Import String.
Import Worklet.

(** The table behind [targetMap], as a list. *)
Lemma targetMap_table (t : string) (bit : Z) :
  targetMap t = Some bit ->
  In (t, bit)
    [("grainSize", 1); ("density", 2); ("spread", 4); ("position", 8);
     ("pitch", 16); ("fmFreq", 32); ("fmAmount", 64); ("filterFreq", 128);
     ("filterRes", 256); ("attack", 512); ("release", 1024);
     ("distAmount", 2048); ("delayMix", 4096); ("delayTime", 8192);
     ("delayFeedback", 16384); ("pan", 32768); ("panSpread", 65536)]%string%Z.
Proof.
  unfold targetMap.
  repeat match goal with
  | |- (if (t =? ?n)%string then _ else _) = _ -> _ =>
      destruct (String.eqb_spec t n) as [->|_];
      [intro H; injection H as <-; cbn; tauto|]
  end.
  discriminate.
Qed.

(** Two entries of the table whose bits overlap are the same entry. *)
Lemma targetMap_bits_disjoint (t t' : string) (bit bit' : Z) :
  targetMap t = Some bit -> targetMap t' = Some bit' ->
  Z.land bit' bit <> 0%Z -> t' = t.
Proof.
  intros H H'. apply targetMap_table in H. apply targetMap_table in H'.
  cbn [In] in H, H'.
  repeat (destruct H as [H|H]; [injection H as <- <-|]); [..|destruct H];
    (repeat (destruct H' as [H'|H']; [injection H' as <- <-|]);
       [..|destruct H']);
    intro Hne; try reflexivity; exfalso; apply Hne; reflexivity.
Qed.

Lemma mask_fold_bit (targets : list string) :
  forall (acc bit : Z),
  Z.land
    (fold_left
       (fun mask t =>
          match targetMap t with
          | Some b => Z.lor mask b
          | None => mask
          end) targets acc) bit <> 0%Z
  <-> (Z.land acc bit <> 0%Z
       \/ exists t' b', In t' targets /\ targetMap t' = Some b'
                        /\ Z.land b' bit <> 0%Z).
Proof.
  induction targets as [|x rest IH]; intros acc bit; cbn [fold_left].
  - split; [now left|]. intros [H|[t' [b' [[] _]]]]. exact H.
  - rewrite IH. destruct (targetMap x) as [b|] eqn:Ex.
    + rewrite Z.land_lor_distr_l.
      split.
      * intros [H|[t' [b' [Hin [Ht Hb]]]]].
        -- destruct (Z.eq_dec (Z.land acc bit) 0) as [Hz|Hz]; [|now left].
           right. exists x, b. split; [now left|]. split; [exact Ex|].
           intro Hb. apply H. rewrite Hz, Hb. reflexivity.
        -- right. exists t', b'. split; [now right|]. now split.
      * intros [H|[t' [b' [[<-|Hin] [Ht Hb]]]]].
        -- left. intro Hz. apply Z.lor_eq_0_iff in Hz. tauto.
        -- left. rewrite Ex in Ht. injection Ht as <-.
           intro Hz. apply Z.lor_eq_0_iff in Hz. tauto.
        -- right. exists t', b'. now repeat split.
    + split.
      * intros [H|[t' [b' [Hin [Ht Hb]]]]]; [now left|].
        right. exists t', b'. split; [now right|]. now split.
      * intros [H|[t' [b' [[<-|Hin] [Ht Hb]]]]]; [now left|congruence|].
        right. exists t', b'. now repeat split.
Qed.

Lemma lfoTargetsToMask_bit_iff (lfoTargets : list string) (t : string)
    (bit : Z) :
  targetMap t = Some bit ->
  (Z.land (lfoTargetsToMask lfoTargets) bit <> 0%Z <-> In t lfoTargets).
Proof.
  intro Ht. unfold lfoTargetsToMask. rewrite mask_fold_bit. split.
  - intros [H|[t' [b' [Hin [Ht' Hb]]]]].
    + rewrite Z.land_0_l in H. congruence.
    + rewrite <- (targetMap_bits_disjoint t t' bit b' Ht Ht' Hb). exact Hin.
  - intro Hin. right. exists t, bit. split; [exact Hin|]. split; [exact Ht|].
    rewrite Z.land_diag. apply targetMap_table in Ht. cbn [In] in Ht.
    repeat (destruct Ht as [Ht|Ht]; [injection Ht as _ <-; discriminate|]).
    destruct Ht.
Qed.

(** The mask the worklet hands to the engine has the bit of a known
    target set exactly when the target's name is in [lfoTargets]; names
    not in the table change nothing; and the table agrees with the
    engine's bit constants. *)
Theorem lfoTargetsToMask_bit (lfoTargets : list string) (t : string)
    (bit : Z) :
  targetMap t = Some bit ->
  (Z.land (lfoTargetsToMask lfoTargets) bit <> 0%Z <-> In t lfoTargets)
  /\ targetMap "grainSize" = Some LFO_GRAIN_SIZE
  /\ targetMap "density" = Some LFO_DENSITY
  /\ targetMap "spread" = Some LFO_SPREAD
  /\ targetMap "position" = Some LFO_POSITION
  /\ targetMap "pitch" = Some LFO_PITCH
  /\ targetMap "fmFreq" = Some LFO_FM_FREQ
  /\ targetMap "fmAmount" = Some LFO_FM_AMOUNT
  /\ targetMap "attack" = Some LFO_ATTACK
  /\ targetMap "release" = Some LFO_RELEASE
  /\ targetMap "pan" = Some LFO_PAN
  /\ targetMap "panSpread" = Some LFO_PAN_SPREAD.
Proof.
  intro Ht. split; [now apply lfoTargetsToMask_bit_iff | repeat split].
Qed.

Lemma lfoTargetsToMask_bit_witness :
  Z.land (lfoTargetsToMask ["pitch"; "bogus"; "density"]%string) 2 <> 0%Z
  <-> In "density"%string ["pitch"; "bogus"; "density"]%string.
Proof.
  refine (proj1 (lfoTargetsToMask_bit ["pitch"; "bogus"; "density"]%string
                   "density" 2 _)).
  reflexivity.
Defined.

(** A parameter whose name is not in [lfoTargets] reaches the grain
    unmodulated and unclamped. *)
Theorem untargeted_parameter_unmodulated (e : GrainEngine)
    (lfoTargets : list string) (t : string) (bit : Z)
    (base scale minVal maxVal : R) :
  EngineParams.lfoTargetMask (params_ e) = lfoTargetsToMask lfoTargets ->
  targetMap t = Some bit -> ~ In t lfoTargets ->
  getModulated e base bit scale minVal maxVal = base.
Proof.
  intros Hm Ht Hn. unfold getModulated. rewrite Hm.
  destruct (Z.eq_dec (Z.land (lfoTargetsToMask lfoTargets) bit) 0) as [Hz|Hz].
  - apply Z.eqb_eq in Hz. now rewrite Hz.
  - exfalso. apply Hn. now apply (lfoTargetsToMask_bit_iff lfoTargets t bit Ht).
Qed.

Lemma untargeted_parameter_unmodulated_witness :
  getModulated
    (set_params GrainEngine_new
       (EngineParams.mk 0.3 0.15 0 0 0 0 0 0 0 0 0 0.5 0.5 0 1 1 0
          (lfoTargetsToMask ["pitch"; "density"]%string) 0.8))
    7 4 ModScales.spread 0 2 = 7.
Proof.
  apply (untargeted_parameter_unmodulated _ ["pitch"; "density"]%string
           "spread"%string).
  - reflexivity.
  - reflexivity.
  - intros [H|[H|[]]]; discriminate.
Defined.

End WorkletMask.
